(** * Affective Cognition Engine

    Shallow embedding of [src/src/core/character/advanced_emotions.py]:
    the valence/arousal/dominance vector algebra, the Panksepp system
    table, the appraisal pattern table, the emotion label table and the
    [AdvancedEmotionalState] operations [appraise_message],
    [_activate_system], [update_affect] and [decay], together with the
    factory [create_advanced_emotional_state].

    Modelling choices.
    - Python floats are modelled as exact rationals [Q]; the decimal
      constants of the source are written as decimal [Q] literals.
    - [distance_to] is the real square root of the rational squared
      distance.  The nearest-label scan compares squared distances, which
      orders exactly like the distances themselves ([sqrt] is strictly
      increasing); lemma [distance_to_lt_iff] below records this.
    - Text is a byte string (UTF-8 bytes).  [appraise_message_with] takes
      [str.lower] as an argument, so that properties proved for every
      lowering function hold of Python's.  The executable [lower] used by
      [appraise_message] lowers the ASCII capitals and the two-byte
      Latin-1 capitals (U+00C0 to U+00DE but U+00D7, which include the
      capitals of the keywords' accented letters [é] and [ì]); it leaves
      every other byte unchanged, unlike [str.lower] on other scripts.
    - The activation dictionary, initialised by [__init__] with one entry
      per system in enumeration order, is a total map from
      [AffectiveSystem] to [Q]; iterating over it is iterating over
      [all_systems].
    - [datetime.now()] is an explicit argument [now] (seconds). *)

From Stdlib Require Import QArith Qround Qminmax Qreals Reals String Ascii List Bool Lia Lra Lqa.
Import ListNotations.
Open Scope Q_scope.

(* ------------------------------------------------------------------ *)
(** ** Dimensional model *)

Record AffectiveDimensions := mkDims {
  valence : Q;
  arousal : Q;
  dominance : Q
}.

(** [AffectiveDimensions()] with its zero defaults. *)
Definition default_dims : AffectiveDimensions := mkDims 0 0 0.

Definition blend (self other : AffectiveDimensions) (weight : Q)
  : AffectiveDimensions :=
  mkDims (valence self * (1 - weight) + valence other * weight)
         (arousal self * (1 - weight) + arousal other * weight)
         (dominance self * (1 - weight) + dominance other * weight).

(** The radicand of [distance_to]. *)
Definition dist_sq (self other : AffectiveDimensions) : Q :=
  (valence self - valence other) * (valence self - valence other) +
  (arousal self - arousal other) * (arousal self - arousal other) +
  (dominance self - dominance other) * (dominance self - dominance other).

Definition distance_to (self other : AffectiveDimensions) : R :=
  sqrt (Q2R (dist_sq self other)).

Definition decay_toward (self baseline : AffectiveDimensions) (rate : Q)
  : AffectiveDimensions :=
  mkDims (valence self + (valence baseline - valence self) * rate)
         (arousal self + (arousal baseline - arousal self) * rate)
         (dominance self + (dominance baseline - dominance self) * rate).

(** [max(-1, min(1, v))] and [max(0, min(1, v))]. *)
Definition clamp_unit (v : Q) : Q := Qmax (-1) (Qmin 1 v).
Definition clamp01 (v : Q) : Q := Qmax 0 (Qmin 1 v).

(** Python's [a < b] on numbers, as a boolean. *)
Definition Qltb (a b : Q) : bool := negb (Qle_bool b a).

(* ------------------------------------------------------------------ *)
(** ** Panksepp's primary affective systems *)

Inductive AffectiveSystem :=
| SEEKING | RAGE | FEAR | LUST | CARE | PANIC_GRIEF | PLAY.

(** Enumeration order, which is also the key order of the activation
    dictionary built by [__init__]. *)
Definition all_systems : list AffectiveSystem :=
  [SEEKING; RAGE; FEAR; LUST; CARE; PANIC_GRIEF; PLAY].

Definition AffectiveSystem_eqb (a b : AffectiveSystem) : bool :=
  match a, b with
  | SEEKING, SEEKING | RAGE, RAGE | FEAR, FEAR | LUST, LUST
  | CARE, CARE | PANIC_GRIEF, PANIC_GRIEF | PLAY, PLAY => true
  | _, _ => false
  end.

Definition SYSTEM_DIMENSIONS (s : AffectiveSystem) : AffectiveDimensions :=
  match s with
  | SEEKING => mkDims 0.5 0.6 0.4
  | RAGE => mkDims (-0.7) 0.9 0.6
  | FEAR => mkDims (-0.8) 0.7 (-0.6)
  | LUST => mkDims 0.6 0.7 0.2
  | CARE => mkDims 0.7 0.2 0.3
  | PANIC_GRIEF => mkDims (-0.8) 0.4 (-0.7)
  | PLAY => mkDims 0.8 0.6 0.3
  end.

(* ------------------------------------------------------------------ *)
(** ** Appraisal dimensions *)

Record AppraisalResult := mkAppraisal {
  novelty : Q;
  pleasantness : Q;
  goal_relevance : Q;
  goal_conduciveness : Q;
  urgency : Q;
  control : Q;
  power : Q;
  adjustment : Q;
  internal_standards : Q;
  external_standards : Q
}.

(** [AppraisalResult()] with its zero defaults. *)
Definition default_appraisal : AppraisalResult :=
  mkAppraisal 0 0 0 0 0 0 0 0 0 0.

(** The attribute names used as keys of [appraisal_effects]. *)
Inductive AppraisalField :=
| f_novelty | f_pleasantness | f_goal_relevance | f_goal_conduciveness
| f_urgency | f_control | f_power | f_adjustment
| f_internal_standards | f_external_standards.

Definition AppraisalField_eqb (a b : AppraisalField) : bool :=
  match a, b with
  | f_novelty, f_novelty | f_pleasantness, f_pleasantness
  | f_goal_relevance, f_goal_relevance
  | f_goal_conduciveness, f_goal_conduciveness
  | f_urgency, f_urgency | f_control, f_control | f_power, f_power
  | f_adjustment, f_adjustment
  | f_internal_standards, f_internal_standards
  | f_external_standards, f_external_standards => true
  | _, _ => false
  end.

(** [getattr(appraisal, dim)] *)
Definition get_field (a : AppraisalResult) (f : AppraisalField) : Q :=
  match f with
  | f_novelty => novelty a
  | f_pleasantness => pleasantness a
  | f_goal_relevance => goal_relevance a
  | f_goal_conduciveness => goal_conduciveness a
  | f_urgency => urgency a
  | f_control => control a
  | f_power => power a
  | f_adjustment => adjustment a
  | f_internal_standards => internal_standards a
  | f_external_standards => external_standards a
  end.

(** [setattr(appraisal, dim, v)] *)
Definition set_field (a : AppraisalResult) (f : AppraisalField) (v : Q)
  : AppraisalResult :=
  let 'mkAppraisal n p gr gc u c pw ad i e := a in
  match f with
  | f_novelty => mkAppraisal v p gr gc u c pw ad i e
  | f_pleasantness => mkAppraisal n v gr gc u c pw ad i e
  | f_goal_relevance => mkAppraisal n p v gc u c pw ad i e
  | f_goal_conduciveness => mkAppraisal n p gr v u c pw ad i e
  | f_urgency => mkAppraisal n p gr gc v c pw ad i e
  | f_control => mkAppraisal n p gr gc u v pw ad i e
  | f_power => mkAppraisal n p gr gc u c v ad i e
  | f_adjustment => mkAppraisal n p gr gc u c pw v i e
  | f_internal_standards => mkAppraisal n p gr gc u c pw ad v e
  | f_external_standards => mkAppraisal n p gr gc u c pw ad i v
  end.

Definition to_dimensions (self : AppraisalResult) : AffectiveDimensions :=
  let v := (pleasantness self + goal_conduciveness self) / 2 in
  let a := (novelty self + urgency self + goal_relevance self) / 3 in
  let d := (control self + power self) / 2 in
  mkDims (clamp_unit v) (clamp_unit a) (clamp_unit d).

(* ------------------------------------------------------------------ *)
(** ** Emotion labels *)

Inductive EmotionLabel :=
| EXCITEMENT | JOY | ENTHUSIASM | DELIGHT
| CONTENTMENT | SERENITY | CALM | PEACE
| ANGER | FEAR_L | ANXIETY | FRUSTRATION | PANIC
| SADNESS | MELANCHOLY | GRIEF | DESPAIR | BOREDOM
| LOVE | COMPASSION | PRIDE | SHAME | GUILT | CONTEMPT | DISGUST | ENVY
| JEALOUSY | GRATITUDE | AWE
| CURIOSITY | INTEREST | SURPRISE | CONFUSION | DETERMINATION | HOPE
| NEUTRAL.
(** [EmotionLabel.FEAR] is [FEAR_L] here, the constructor name [FEAR]
    being taken by [AffectiveSystem.FEAR]. *)

(** [EMOTION_COORDINATES], in dictionary (insertion) order. *)
Definition EMOTION_COORDINATES : list (EmotionLabel * AffectiveDimensions) :=
  [ (EXCITEMENT, mkDims 0.7 0.8 0.5);
    (JOY, mkDims 0.8 0.6 0.4);
    (ENTHUSIASM, mkDims 0.7 0.7 0.6);
    (DELIGHT, mkDims 0.8 0.5 0.3);
    (CONTENTMENT, mkDims 0.6 (-0.2) 0.3);
    (SERENITY, mkDims 0.7 (-0.4) 0.4);
    (CALM, mkDims 0.4 (-0.5) 0.3);
    (PEACE, mkDims 0.6 (-0.6) 0.5);
    (ANGER, mkDims (-0.6) 0.8 0.6);
    (FEAR_L, mkDims (-0.8) 0.7 (-0.6));
    (ANXIETY, mkDims (-0.5) 0.6 (-0.4));
    (FRUSTRATION, mkDims (-0.5) 0.6 (-0.2));
    (PANIC, mkDims (-0.9) 0.9 (-0.8));
    (SADNESS, mkDims (-0.6) (-0.3) (-0.3));
    (MELANCHOLY, mkDims (-0.4) (-0.4) (-0.2));
    (GRIEF, mkDims (-0.8) 0.2 (-0.6));
    (DESPAIR, mkDims (-0.9) (-0.2) (-0.8));
    (BOREDOM, mkDims (-0.3) (-0.6) (-0.1));
    (LOVE, mkDims 0.9 0.4 0.2);
    (COMPASSION, mkDims 0.6 0.2 0.4);
    (PRIDE, mkDims 0.7 0.4 0.7);
    (SHAME, mkDims (-0.7) 0.4 (-0.6));
    (GUILT, mkDims (-0.6) 0.3 (-0.4));
    (CONTEMPT, mkDims (-0.5) 0.2 0.6);
    (DISGUST, mkDims (-0.7) 0.3 0.3);
    (ENVY, mkDims (-0.5) 0.4 (-0.3));
    (JEALOUSY, mkDims (-0.6) 0.6 (-0.2));
    (GRATITUDE, mkDims 0.8 0.3 (-0.1));
    (AWE, mkDims 0.6 0.5 (-0.3));
    (CURIOSITY, mkDims 0.4 0.5 0.3);
    (INTEREST, mkDims 0.3 0.4 0.2);
    (SURPRISE, mkDims 0.1 0.7 (-0.1));
    (CONFUSION, mkDims (-0.2) 0.4 (-0.3));
    (DETERMINATION, mkDims 0.3 0.6 0.7);
    (HOPE, mkDims 0.6 0.3 0.2);
    (NEUTRAL, mkDims 0.0 0.0 0.0) ].

(** The loop of [get_closest_emotion]: [min_distance] is [None] while it
    still holds [float('inf')], and otherwise holds the squared distance
    of the current [closest] label. *)
Fixpoint closest_scan (dimensions : AffectiveDimensions)
    (table : list (EmotionLabel * AffectiveDimensions))
    (closest : EmotionLabel) (min_distance : option Q)
  : EmotionLabel * option Q :=
  match table with
  | [] => (closest, min_distance)
  | (emotion, coords) :: rest =>
      let distance := dist_sq dimensions coords in
      let lt := match min_distance with
                | None => true
                | Some m => Qltb distance m
                end in
      if lt then closest_scan dimensions rest emotion (Some distance)
      else closest_scan dimensions rest closest min_distance
  end.

(** [max(0, 1 - min_distance / 2)]; with [min_distance = inf] this is 0. *)
Definition confidence_of (min_distance : option Q) : R :=
  match min_distance with
  | None => 0%R
  | Some m => Rmax 0 (1 - sqrt (Q2R m) / 2)
  end.

Definition get_closest_emotion (dimensions : AffectiveDimensions)
  : EmotionLabel * R :=
  let '(closest, min_distance) :=
    closest_scan dimensions EMOTION_COORDINATES NEUTRAL None in
  (closest, confidence_of min_distance).

(* ------------------------------------------------------------------ *)
(** ** Text matching *)

(** [str.lower] on one byte: ASCII upper-case letters only. *)
Definition lower_ascii (c : ascii) : ascii :=
  let n := nat_of_ascii c in
  if (65 <=? n)%nat && (n <=? 90)%nat then ascii_of_nat (n + 32) else c.

(** Second byte [0x80..0x9E] (but [0x97]) of the UTF-8 encoding
    [0xC3 ...] of a Latin-1 capital, and its lower-case form (code point
    plus 0x20, here the second byte plus 0x20). *)
Definition latin1_upper (c : ascii) : bool :=
  let n := nat_of_ascii c in
  (128 <=? n)%nat && (n <=? 158)%nat && negb (n =? 151)%nat.

Definition latin1_lower (c : ascii) : ascii := ascii_of_nat (nat_of_ascii c + 32).

(** [str.lower] on UTF-8 text: ASCII and Latin-1 capitals. *)
Fixpoint lower (s : string) : string :=
  match s with
  | EmptyString => EmptyString
  | String c s' =>
      if (nat_of_ascii c =? 195)%nat then
        match s' with
        | String c2 s'' =>
            if latin1_upper c2 then String c (String (latin1_lower c2) (lower s''))
            else String c (lower s')
        | EmptyString => String c EmptyString
        end
      else String (lower_ascii c) (lower s')
  end.

Fixpoint prefixb (p s : string) : bool :=
  match p, s with
  | EmptyString, _ => true
  | String c p', String d s' => Ascii.eqb c d && prefixb p' s'
  | String _ _, EmptyString => false
  end.

(** Python's [kw in s] on strings. *)
Fixpoint contains (kw s : string) : bool :=
  prefixb kw s ||
  match s with
  | EmptyString => false
  | String _ s' => contains kw s'
  end.

(* ------------------------------------------------------------------ *)
(** ** Appraisal patterns *)

Record AppraisalPattern := mkPattern {
  keywords : list string;
  appraisal_effects : list (AppraisalField * Q);
  system_activation : option AffectiveSystem
}.

Section PatternTable.
Local Open Scope string_scope.

(** [APPRAISAL_PATTERNS], in list order; each [appraisal_effects]
    dictionary keeps its literal key order. *)
Definition APPRAISAL_PATTERNS : list AppraisalPattern := [
  (* SEEKING *)
  mkPattern ["tell me"; "what"; "why"; "how"; "explain"; "curious"; "wonder";
             "interesting"; "discover"; "explore"; "learn"; "understand";
             "dimmi"; "cosa"; "perché"; "come"; "spiega"; "curioso"]
            [(f_novelty, 0.5); (f_goal_relevance, 0.6); (f_pleasantness, 0.3)]
            (Some SEEKING);
  (* RAGE *)
  mkPattern ["angry"; "furious"; "hate"; "unfair"; "frustrating"; "annoying";
             "enemy"; "betrayed"; "cheated"; "stolen"; "injustice";
             "arrabbiato"; "odio"; "ingiusto"; "tradito"; "nemico"]
            [(f_pleasantness, -0.7); (f_goal_conduciveness, -0.8);
             (f_urgency, 0.6); (f_power, 0.4)]
            (Some RAGE);
  (* FEAR *)
  mkPattern ["danger"; "threat"; "afraid"; "scared"; "terrified"; "attack";
             "enemy"; "death"; "kill"; "destroy"; "monster"; "dark";
             "pericolo"; "paura"; "minaccia"; "morte"; "attacco"]
            [(f_pleasantness, -0.8); (f_urgency, 0.8); (f_control, -0.5);
             (f_goal_conduciveness, -0.6)]
            (Some FEAR);
  (* CARE *)
  mkPattern ["help"; "protect"; "care"; "love"; "friend"; "family"; "child";
             "safe"; "comfort"; "support"; "together"; "trust";
             "aiuto"; "proteggere"; "amore"; "amico"; "famiglia"]
            [(f_pleasantness, 0.7); (f_goal_relevance, 0.6);
             (f_internal_standards, 0.5)]
            (Some CARE);
  (* PANIC/GRIEF *)
  mkPattern ["lost"; "gone"; "died"; "death"; "miss"; "alone"; "lonely";
             "abandoned"; "left"; "goodbye"; "never"; "farewell";
             "perso"; "morto"; "solo"; "addio"; "abbandonato"]
            [(f_pleasantness, -0.8); (f_goal_conduciveness, -0.7);
             (f_control, -0.6); (f_adjustment, -0.5)]
            (Some PANIC_GRIEF);
  (* PLAY *)
  mkPattern ["fun"; "play"; "game"; "joke"; "laugh"; "happy"; "joy"; "party";
             "celebrate"; "dance"; "sing"; "wonderful"; "amazing"; "great";
             "fantastic"; "awesome"; "brilliant"; "lovely"; "beautiful";
             "divertente"; "gioco"; "ridere"; "felice"; "festa"; "bello";
             "fantastico"; "meraviglioso"; "stupendo"; "magnifico"]
            [(f_pleasantness, 0.9); (f_novelty, 0.4); (f_control, 0.5);
             (f_goal_conduciveness, 0.6)]
            (Some PLAY);
  (* Gratitude *)
  mkPattern ["thank"; "grateful"; "appreciate"; "thanks"; "blessing";
             "grazie"; "grato"; "apprezzo"; "benedizione"; "gentile";
             "kind"; "generous"; "thoughtful"]
            [(f_pleasantness, 0.8); (f_external_standards, 0.6);
             (f_goal_conduciveness, 0.5); (f_internal_standards, 0.4)]
            (Some CARE);
  (* Hope *)
  mkPattern ["hope"; "maybe"; "possible"; "future"; "better"; "tomorrow";
             "chance"; "opportunity"; "dream"; "wish";
             "speranza"; "forse"; "futuro"; "domani"; "sogno"]
            [(f_pleasantness, 0.6); (f_goal_conduciveness, 0.5);
             (f_adjustment, 0.5)]
            (Some SEEKING);
  (* Shame/Guilt *)
  mkPattern ["sorry"; "apologize"; "fault"; "mistake"; "wrong"; "failed";
             "ashamed"; "embarrassed"; "regret";
             "scusa"; "errore"; "sbagliato"; "vergogna"; "colpa"]
            [(f_pleasantness, -0.5); (f_internal_standards, -0.6);
             (f_external_standards, -0.5); (f_control, -0.3)]
            None;
  (* Pride *)
  mkPattern ["proud"; "accomplished"; "achieved"; "success"; "won"; "victory";
             "best"; "excellent"; "mastered"; "hero"; "well done"; "bravo";
             "orgoglioso"; "successo"; "vittoria"; "eroe"; "campione";
             "complimenti"; "bravissimo"]
            [(f_pleasantness, 0.8); (f_internal_standards, 0.8);
             (f_power, 0.7); (f_control, 0.6)]
            (Some PLAY);
  (* Surprise *)
  mkPattern ["surprise"; "unexpected"; "sudden"; "shocking"; "unbelievable";
             "wow"; "amazing"; "incredible"; "really";
             "sorpresa"; "improvviso"; "incredibile"; "davvero"]
            [(f_novelty, 0.9); (f_urgency, 0.4)]
            (Some SEEKING);
  (* Friendly greetings *)
  mkPattern ["hello"; "hi"; "hey"; "good morning"; "good evening"; "greetings";
             "welcome"; "nice to meet"; "pleasure"; "good to see";
             "ciao"; "salve"; "buongiorno"; "buonasera"; "piacere";
             "benvenuto"; "come stai"; "come va"]
            [(f_pleasantness, 0.6); (f_external_standards, 0.4);
             (f_goal_conduciveness, 0.3)]
            (Some PLAY);
  (* Compliments *)
  mkPattern ["you're great"; "you're amazing"; "impressive"; "admire";
             "respect"; "wise"; "smart"; "clever"; "talented"; "skilled";
             "powerful"; "strong"; "beautiful"; "magnificent"; "noble";
             "sei grande"; "sei fantastico"; "ammiro"; "rispetto";
             "saggio"; "intelligente"; "bravo"; "forte"; "potente"]
            [(f_pleasantness, 0.85); (f_internal_standards, 0.7);
             (f_power, 0.5); (f_external_standards, 0.6)]
            (Some PLAY);
  (* Agreement *)
  mkPattern ["yes"; "agree"; "right"; "true"; "correct"; "exactly";
             "indeed"; "absolutely"; "of course"; "certainly";
             "sì"; "giusto"; "vero"; "esatto"; "certo"; "certamente";
             "proprio così"; "hai ragione"; "concordo"]
            [(f_pleasantness, 0.5); (f_goal_conduciveness, 0.4);
             (f_external_standards, 0.3)]
            (Some CARE);
  (* Positive interest *)
  mkPattern ["tell me more"; "fascinating"; "intriguing"; "love to hear";
             "want to know"; "sounds good"; "sounds great"; "exciting";
             "raccontami"; "affascinante"; "interessante"; "vorrei sapere";
             "mi piace"; "che bello"; "entusiasmante"]
            [(f_pleasantness, 0.6); (f_novelty, 0.5);
             (f_goal_relevance, 0.5); (f_goal_conduciveness, 0.4)]
            (Some SEEKING);
  (* Adventure *)
  mkPattern ["adventure"; "quest"; "journey"; "mission"; "let's go";
             "ready"; "brave"; "courage"; "together"; "allies";
             "avventura"; "missione"; "viaggio"; "andiamo"; "pronti";
             "coraggio"; "insieme"; "alleati"; "compagni"]
            [(f_pleasantness, 0.7); (f_goal_relevance, 0.7);
             (f_goal_conduciveness, 0.6); (f_power, 0.5)]
            (Some SEEKING);
  (* Peace / Tranquillity *)
  mkPattern ["peace"; "calm"; "quiet"; "rest"; "relax"; "serene"; "tranquil";
             "pace"; "calma"; "tranquillo"; "riposo"; "sereno";
             "rilassante"; "quiete"; "armonia"]
            [(f_pleasantness, 0.6); (f_control, 0.5);
             (f_adjustment, 0.5); (f_urgency, -0.4)]
            (Some CARE);
  (* Stories *)
  mkPattern ["story"; "tale"; "legend"; "once upon"; "long ago"; "tell";
             "storia"; "racconto"; "leggenda"; "c'era una volta";
             "narra"; "racconta"]
            [(f_pleasantness, 0.5); (f_novelty, 0.6);
             (f_goal_relevance, 0.4)]
            (Some SEEKING)
].

End PatternTable.

(* ------------------------------------------------------------------ *)
(** ** Advanced emotional state *)

(** One entry of [affect_history] as written by [_record_state]; the ISO
    timestamp is kept as the clock value it is printed from. *)
Record HistoryEntry := mkHistory {
  h_timestamp : Q;
  h_valence : Q;
  h_arousal : Q;
  h_dominance : Q;
  h_systems : list (AffectiveSystem * Q)
}.

Record AdvancedEmotionalState := mkState {
  character_id : string;
  current_affect : AffectiveDimensions;
  baseline_affect : AffectiveDimensions;
  system_activations : AffectiveSystem -> Q;
  last_appraisal : option AppraisalResult;
  emotional_inertia : Q;
  last_update : Q;
  affect_history : list HistoryEntry;
  max_history : nat
}.

Definition set_current_affect (st : AdvancedEmotionalState) d :=
  let 'mkState c _ b acts la i lu h m := st in mkState c d b acts la i lu h m.
Definition set_system_activations (st : AdvancedEmotionalState) acts :=
  let 'mkState c cur b _ la i lu h m := st in mkState c cur b acts la i lu h m.
Definition set_last_appraisal (st : AdvancedEmotionalState) a :=
  let 'mkState c cur b acts _ i lu h m := st in
  mkState c cur b acts (Some a) i lu h m.
Definition set_last_update (st : AdvancedEmotionalState) t :=
  let 'mkState c cur b acts la i _ h m := st in mkState c cur b acts la i t h m.
Definition set_affect_history (st : AdvancedEmotionalState) h :=
  let 'mkState c cur b acts la i lu _ m := st in mkState c cur b acts la i lu h m.

(** [self.system_activations[system.value] = v] *)
Definition set_activation (acts : AffectiveSystem -> Q) (system : AffectiveSystem)
    (v : Q) : AffectiveSystem -> Q :=
  fun s => if AffectiveSystem_eqb system s then v else acts s.

(** [_activate_system] *)
Definition activate_system (st : AdvancedEmotionalState)
    (system : AffectiveSystem) (intensity : Q) : AdvancedEmotionalState :=
  let current := system_activations st system in
  let new_value := current + (intensity - current) * (1 - emotional_inertia st) in
  set_system_activations st
    (set_activation (system_activations st) system (clamp01 new_value)).

(** [pattern.appraisal_effects.get(k, 0)] *)
Fixpoint effect_get (effects : list (AppraisalField * Q)) (k : AppraisalField) : Q :=
  match effects with
  | [] => 0
  | (k', v) :: rest => if AppraisalField_eqb k k' then v else effect_get rest k
  end.

Definition is_negative_pattern (pattern : AppraisalPattern) : bool :=
  existsb (fun k => Qltb (effect_get (appraisal_effects pattern) k) (-0.3))
    [f_pleasantness; f_goal_conduciveness].

Definition is_negative_system (s : AffectiveSystem) : bool :=
  match s with RAGE | FEAR | PANIC_GRIEF => true | _ => false end.

(** [sum(1 for kw in pattern.keywords if kw in message_lower)] *)
Definition count_matches (kws : list string) (message_lower : string) : nat :=
  length (filter (fun kw => contains kw message_lower) kws).

(** [for dim, effect in pattern.appraisal_effects.items(): ...] *)
Definition apply_effects (appraisal : AppraisalResult)
    (effects : list (AppraisalField * Q)) (weight : Q) : AppraisalResult :=
  fold_left (fun a '(dim, effect) => set_field a dim (get_field a dim + effect * weight))
    effects appraisal.

(** One iteration of the pattern loop of [appraise_message]. *)
Definition appraise_pattern (message_lower : string)
    (acc : AppraisalResult * AdvancedEmotionalState) (pattern : AppraisalPattern)
  : AppraisalResult * AdvancedEmotionalState :=
  let '(appraisal, st) := acc in
  let matches := count_matches (keywords pattern) message_lower in
  if (0 <? matches)%nat then
    let weight0 := Qmin 1.0 (inject_Z (Z.of_nat matches) * 0.3) in
    let weight := if is_negative_pattern pattern then weight0 * 1.8 else weight0 in
    let appraisal' := apply_effects appraisal (appraisal_effects pattern) weight in
    let st' := match system_activation pattern with
               | Some s =>
                   let sw := weight * 0.5 in
                   let sw := if is_negative_system s then sw * 1.5 else sw in
                   activate_system st s sw
               | None => st
               end in
    (appraisal', st')
  else (appraisal, st).

Definition clamp_appraisal (a : AppraisalResult) : AppraisalResult :=
  mkAppraisal (clamp_unit (novelty a)) (clamp_unit (pleasantness a))
    (clamp_unit (goal_relevance a)) (clamp_unit (goal_conduciveness a))
    (clamp_unit (urgency a)) (clamp_unit (control a)) (clamp_unit (power a))
    (clamp_unit (adjustment a)) (clamp_unit (internal_standards a))
    (clamp_unit (external_standards a)).

(** [appraise_message]: the returned appraisal and the updated state,
    for a given [str.lower]. *)
Definition appraise_message_with (str_lower : string -> string)
    (st : AdvancedEmotionalState) (message : string)
  : AppraisalResult * AdvancedEmotionalState :=
  let message_lower := str_lower message in
  let '(appraisal, st') :=
    fold_left (appraise_pattern message_lower) APPRAISAL_PATTERNS
      (default_appraisal, st) in
  let appraisal' := clamp_appraisal appraisal in
  (appraisal', set_last_appraisal st' appraisal').

(** [appraise_message] with the executable [lower]. *)
Definition appraise_message (st : AdvancedEmotionalState) (message : string)
  : AppraisalResult * AdvancedEmotionalState :=
  appraise_message_with lower st message.

(** One iteration of the accumulation loop of [update_affect] over the
    activation dictionary: weighted coordinate sum and [total_activation]. *)
Definition system_step (acts : AffectiveSystem -> Q)
    (acc : AffectiveDimensions * Q) (s : AffectiveSystem)
  : AffectiveDimensions * Q :=
  let '(infl, total) := acc in
  let activation := acts s in
  if Qltb 0.1 activation then
    let sd := SYSTEM_DIMENSIONS s in
    (mkDims (valence infl + valence sd * activation)
            (arousal infl + arousal sd * activation)
            (dominance infl + dominance sd * activation),
     total + activation)
  else (infl, total).

Definition system_sum (acts : AffectiveSystem -> Q) : AffectiveDimensions * Q :=
  fold_left (system_step acts) all_systems (default_dims, 0).

Definition system_influence (acts : AffectiveSystem -> Q) : AffectiveDimensions :=
  let '(infl, total_activation) := system_sum acts in
  if Qltb 0 total_activation then
    mkDims (valence infl / total_activation) (arousal infl / total_activation)
           (dominance infl / total_activation)
  else infl.

(** [transition_resistance] after the contamination adjustment. *)
Definition transition_resistance (inertia : Q)
    (current combined_target : AffectiveDimensions) : Q :=
  let r := 1 - inertia in
  if Qltb (valence current) (-0.3) && Qltb 0 (valence combined_target) then r * 0.4
  else if Qltb 0.3 (valence current) && Qltb (valence combined_target) 0 then r * 1.3
  else r.

(** [self.affect_history[-self.max_history:]] when the history is too
    long ([l[-0:]] is the whole list). *)
Definition trim_history (h : list HistoryEntry) (m : nat) : list HistoryEntry :=
  if (m <? length h)%nat then
    match m with
    | O => h
    | S _ => skipn (length h - m) h
    end
  else h.

(** [_record_state] *)
Definition record_state (now : Q) (st : AdvancedEmotionalState)
  : AdvancedEmotionalState :=
  let cur := current_affect st in
  let entry := mkHistory now (valence cur) (arousal cur) (dominance cur)
                 (map (fun s => (s, system_activations st s)) all_systems) in
  set_affect_history st
    (trim_history (affect_history st ++ [entry]) (max_history st)).

(** [combined_target] of [update_affect]. *)
Definition combined_target_of (st : AdvancedEmotionalState)
    (appraisal : AppraisalResult) : AffectiveDimensions :=
  let target := to_dimensions appraisal in
  blend target (system_influence (system_activations st)) 0.4.

Definition update_affect (now : Q) (st : AdvancedEmotionalState)
    (appraisal : AppraisalResult) : AdvancedEmotionalState :=
  let combined_target := combined_target_of st appraisal in
  let resistance :=
    transition_resistance (emotional_inertia st) (current_affect st) combined_target in
  let st' := set_current_affect st
               (blend (current_affect st) combined_target (Qmin 1.0 resistance)) in
  record_state now st'.

(** [decay_rate] as computed in [decay] from the elapsed seconds. *)
Definition decay_rate (seconds_elapsed : Q) (current : AffectiveDimensions) : Q :=
  let base_decay_rate := 0.05 * (seconds_elapsed / 60.0) in
  if Qltb (valence current) (-0.2) then
    let arousal_factor := 1.0 + Qmax 0 (arousal current) * 0.5 in
    base_decay_rate * 0.4 / arousal_factor
  else if Qltb 0.2 (valence current) then base_decay_rate * 1.5
  else base_decay_rate.

Definition system_decay_factor (s : AffectiveSystem) (rate : Q) : Q :=
  match s with
  | RAGE | FEAR | PANIC_GRIEF => 1 - rate * 0.5
  | PLAY | CARE => 1 - rate
  | SEEKING | LUST => 1 - rate * 0.8
  end.

Definition decay (now : Q) (seconds_elapsed : option Q)
    (st : AdvancedEmotionalState) : AdvancedEmotionalState :=
  let secs := match seconds_elapsed with
              | Some s => s
              | None => now - last_update st
              end in
  let rate := decay_rate secs (current_affect st) in
  let st1 := set_current_affect st
               (decay_toward (current_affect st) (baseline_affect st) rate) in
  let acts := system_activations st1 in
  let st2 := set_system_activations st1
               (fun s => acts s * system_decay_factor s rate) in
  set_last_update st2 now.

(** [AdvancedEmotionalState(...)] as built by the factory: pydantic checks
    [emotional_inertia] against [Field(ge=0.0, le=1.0)] and raises a
    validation error ([None]) otherwise; the [AffectiveDimensions]
    dataclass fields carry no constraint.  [__init__] fills the empty
    activation dictionary with zeros. *)
Definition create_advanced_emotional_state (character_id : string)
    (baseline_valence baseline_arousal baseline_dominance emotional_inertia : Q)
    (now : Q) : option AdvancedEmotionalState :=
  let baseline := mkDims baseline_valence baseline_arousal baseline_dominance in
  if Qle_bool 0 emotional_inertia && Qle_bool emotional_inertia 1 then
    Some (mkState character_id baseline baseline (fun _ => 0) None
            emotional_inertia now [] 50)
  else None.

(** The factory with its default arguments. *)
Definition create_default_state (character_id : string) (now : Q)
  : option AdvancedEmotionalState :=
  create_advanced_emotional_state character_id 0.15 0.1 0.0 0.25 now.

(* ------------------------------------------------------------------ *)
(** ** Reading the state: labels, dominant system, summary, modifier *)

(** [AffectiveSystem.value] *)
Definition system_value (s : AffectiveSystem) : string :=
  match s with
  | SEEKING => "seeking" | RAGE => "rage" | FEAR => "fear" | LUST => "lust"
  | CARE => "care" | PANIC_GRIEF => "panic_grief" | PLAY => "play"
  end%string.

(** [EmotionLabel.value] *)
Definition label_value (l : EmotionLabel) : string :=
  match l with
  | EXCITEMENT => "excitement" | JOY => "joy" | ENTHUSIASM => "enthusiasm"
  | DELIGHT => "delight" | CONTENTMENT => "contentment"
  | SERENITY => "serenity" | CALM => "calm" | PEACE => "peace"
  | ANGER => "anger" | FEAR_L => "fear" | ANXIETY => "anxiety"
  | FRUSTRATION => "frustration" | PANIC => "panic" | SADNESS => "sadness"
  | MELANCHOLY => "melancholy" | GRIEF => "grief" | DESPAIR => "despair"
  | BOREDOM => "boredom" | LOVE => "love" | COMPASSION => "compassion"
  | PRIDE => "pride" | SHAME => "shame" | GUILT => "guilt"
  | CONTEMPT => "contempt" | DISGUST => "disgust" | ENVY => "envy"
  | JEALOUSY => "jealousy" | GRATITUDE => "gratitude" | AWE => "awe"
  | CURIOSITY => "curiosity" | INTEREST => "interest"
  | SURPRISE => "surprise" | CONFUSION => "confusion"
  | DETERMINATION => "determination" | HOPE => "hope" | NEUTRAL => "neutral"
  end%string.

(** [get_emotion_label] *)
Definition get_emotion_label (st : AdvancedEmotionalState) : EmotionLabel * R :=
  get_closest_emotion (current_affect st).

(** [dominant_emotion] *)
Definition dominant_emotion (st : AdvancedEmotionalState) : string :=
  label_value (fst (get_emotion_label st)).

(** [dominant_intensity] *)
Definition dominant_intensity (st : AdvancedEmotionalState) : Q :=
  (arousal (current_affect st) + 1) / 2.

(** One step of the builtin [max(items, key=lambda x: x[1])]: the item
    held is replaced only by one with a strictly greater key, so the
    first maximal item wins. *)
Definition max_step (acts : AffectiveSystem -> Q)
    (best : AffectiveSystem * Q) (s : AffectiveSystem) : AffectiveSystem * Q :=
  if Qltb (snd best) (acts s) then (s, acts s) else best.

Definition max_item (acts : AffectiveSystem -> Q) (items : list AffectiveSystem)
  : option (AffectiveSystem * Q) :=
  match items with
  | [] => None
  | s :: rest => Some (fold_left (max_step acts) rest (s, acts s))
  end.

(** [get_dominant_system]; [if not self.system_activations: return None]
    is the empty case of [max_item]. *)
Definition get_dominant_system (st : AdvancedEmotionalState)
  : option (AffectiveSystem * Q) :=
  match max_item (system_activations st) all_systems with
  | None => None
  | Some (s, v) => if Qltb v 0.1 then None else Some (s, v)
  end.

(** [round(x, 2)] on the exact value [x]: the nearest multiple of 0.01,
    ties to even, as CPython's correctly rounded [round] does. *)
Definition round_half_even (x : Q) : Z :=
  let f := Qfloor x in
  let r := x - inject_Z f in
  if Qltb r (1 # 2) then f
  else if Qltb (1 # 2) r then (f + 1)%Z
  else if Z.even f then f else (f + 1)%Z.

Definition round2 (x : Q) : Q := inject_Z (round_half_even (x * 100)) / 100.

(** The dictionary returned by [get_summary]. *)
Record Summary := mkSummary {
  summary_emotion : string;
  summary_emotion_confidence : R;
  summary_valence : Q;
  summary_arousal : Q;
  summary_dominance : Q;
  summary_dominant_system : option string;
  summary_system_intensity : Q;
  summary_all_systems : list (string * Q)
}.

(** [get_summary] *)
Definition get_summary (st : AdvancedEmotionalState) : Summary :=
  let '(emotion, confidence) := get_emotion_label st in
  let dominant_system := get_dominant_system st in
  let acts := system_activations st in
  mkSummary (label_value emotion) confidence
    (valence (current_affect st)) (arousal (current_affect st))
    (dominance (current_affect st))
    (match dominant_system with Some (s, _) => Some (system_value s) | None => None end)
    (match dominant_system with Some (_, v) => v | None => 0 end)
    (map (fun s => (system_value s, round2 (acts s)))
       (filter (fun s => Qltb 0.1 (acts s)) all_systems)).

(** The test [confidence > 0.5] on [confidence = max(0, 1 - d / 2)],
    decided on the squared minimum distance [m = d * d]: it holds
    exactly when [m < 1] (lemma [confidence_gt_half_spec]); with
    [min_distance = inf] the confidence is 0. *)
Definition confidence_gt_half (min_distance : option Q) : bool :=
  match min_distance with
  | None => false
  | Some m => Qltb m 1
  end.

Section ResponseModifier.
Local Open Scope string_scope.

(** [system_descriptions] *)
Definition system_description (s : AffectiveSystem) : string :=
  match s with
  | SEEKING => "curious and explorative"
  | RAGE => "frustrated or angered"
  | FEAR => "cautious and wary"
  | CARE => "nurturing and protective"
  | PANIC_GRIEF => "experiencing a sense of loss"
  | PLAY => "playful and lighthearted"
  | LUST => "drawn to connection"
  end.

(** The [modifiers] list built by [get_response_modifier]. *)
Definition response_modifiers (st : AdvancedEmotionalState) : list string :=
  let '(emotion, min_distance) :=
    closest_scan (current_affect st) EMOTION_COORDINATES NEUTRAL None in
  let cur := current_affect st in
  let m_valence :=
    if Qltb 0.5 (valence cur) then ["feeling positively inclined"]
    else if Qltb (valence cur) (-0.5) then ["feeling negatively affected"]
    else [] in
  let m_arousal :=
    if Qltb 0.5 (arousal cur) then ["in a heightened emotional state"]
    else if Qltb (arousal cur) (-0.3) then ["in a calm, low-energy state"]
    else [] in
  let m_dominance :=
    if Qltb 0.5 (dominance cur) then ["feeling confident and in control"]
    else if Qltb (dominance cur) (-0.5) then ["feeling somewhat vulnerable"]
    else [] in
  let m_system :=
    match get_dominant_system st with
    | Some (system, intensity) =>
        if Qltb 0.3 intensity then [system_description system] else []
    | None => []
    end in
  let m_emotion :=
    if confidence_gt_half min_distance
    then ["experiencing " ++ label_value emotion] else [] in
  app m_valence (app m_arousal (app m_dominance (app m_system m_emotion))).

(** [sep.join(items)] *)
Definition join (sep : string) (items : list string) : string :=
  match items with
  | [] => ""
  | x :: rest => fold_left (fun acc y => acc ++ sep ++ y) rest x
  end.

(** [get_response_modifier]; [filter(None, modifiers)] drops the empty
    strings. *)
Definition get_response_modifier (st : AdvancedEmotionalState) : string :=
  match response_modifiers st with
  | [] => "[Emotional state: neutral]"
  | modifiers =>
      "[Emotional state: " ++
      join ", " (filter (fun m => negb (String.eqb m "")) modifiers) ++ "]"
  end.

End ResponseModifier.

(* ------------------------------------------------------------------ *)
(** ** Sequences of calls *)

(** The elapsed time [decay] uses. *)
Definition elapsed_of (now : Q) (seconds_elapsed : option Q)
    (st : AdvancedEmotionalState) : Q :=
  match seconds_elapsed with
  | Some s => s
  | None => now - last_update st
  end.

(** The public mutating calls a caller makes on a state; [ok] restricts
    the elapsed time of the [decay] calls. *)
Inductive call (ok : Q -> Prop) : AdvancedEmotionalState -> AdvancedEmotionalState -> Prop :=
| call_appraise st message : call ok st (snd (appraise_message st message))
| call_update now st appraisal : call ok st (update_affect now st appraisal)
| call_decay now seconds_elapsed st :
    ok (elapsed_of now seconds_elapsed st) ->
    call ok st (decay now seconds_elapsed st).

(** Any finite sequence of calls. *)
Inductive calls (ok : Q -> Prop) : AdvancedEmotionalState -> AdvancedEmotionalState -> Prop :=
| calls_nil st : calls ok st st
| calls_cons st1 st2 st3 : call ok st1 st2 -> calls ok st2 st3 -> calls ok st1 st3.

(* ------------------------------------------------------------------ *)
(** ** Bounds predicates *)

Definition in_unit (v : Q) : Prop := -1 <= v <= 1.

Definition dims_bounded (d : AffectiveDimensions) : Prop :=
  in_unit (valence d) /\ in_unit (arousal d) /\ in_unit (dominance d).

Definition activations_bounded (acts : AffectiveSystem -> Q) : Prop :=
  forall s, 0 <= acts s <= 1.

(** Every affect field and every activation in its declared interval,
    and the inertia within its pydantic constraint [ge=0.0, le=1.0]. *)
Definition state_bounded (st : AdvancedEmotionalState) : Prop :=
  dims_bounded (current_affect st) /\ dims_bounded (baseline_affect st) /\
  activations_bounded (system_activations st) /\
  0 <= emotional_inertia st <= 1.

(* ------------------------------------------------------------------ *)
(** ** Basic lemmas *)

Lemma Qltb_true (a b : Q) : Qltb a b = true <-> a < b.
Proof.
  unfold Qltb. rewrite negb_true_iff. split; intro H.
  - apply Qnot_le_lt. intro H'. apply Qle_bool_iff in H'. congruence.
  - destruct (Qle_bool b a) eqn:E; [|reflexivity].
    apply Qle_bool_iff in E. exfalso. apply (Qlt_not_le a b); assumption.
Qed.

Lemma Qltb_false (a b : Q) : Qltb a b = false <-> b <= a.
Proof.
  unfold Qltb. rewrite negb_false_iff. apply Qle_bool_iff.
Qed.

(** Case split on a [Qltb] test, leaving the comparison as hypothesis. *)
Ltac case_qltb a b :=
  let E := fresh "E" in
  destruct (Qltb a b) eqn:E;
  [apply Qltb_true in E | apply Qltb_false in E].

(** Replace each [Qmin]/[Qmax] by its two cases. *)
Ltac split_minmax :=
  repeat match goal with
  | |- context [Qmin ?a ?b] =>
      let H1 := fresh "Hm" in let H2 := fresh "Hm" in
      destruct (Q.min_spec a b) as [[H1 H2]|[H1 H2]];
      rewrite H2; clear H2
  | |- context [Qmax ?a ?b] =>
      let H1 := fresh "Hm" in let H2 := fresh "Hm" in
      destruct (Q.max_spec a b) as [[H1 H2]|[H1 H2]];
      rewrite H2; clear H2
  end.

Lemma clamp_unit_bounds (v : Q) : in_unit (clamp_unit v).
Proof.
  unfold in_unit, clamp_unit. split_minmax; lra.
Qed.

Lemma clamp01_bounds (v : Q) : 0 <= clamp01 v <= 1.
Proof.
  unfold clamp01. split_minmax; lra.
Qed.

Lemma interp_unit (x y w : Q) :
  in_unit x -> in_unit y -> 0 <= w <= 1 -> in_unit (x * (1 - w) + y * w).
Proof.
  unfold in_unit. intros [Hx1 Hx2] [Hy1 Hy2] [Hw1 Hw2].
  assert (0 <= (1 - x) * (1 - w)) by (apply Qmult_le_0_compat; lra).
  assert (0 <= (1 + x) * (1 - w)) by (apply Qmult_le_0_compat; lra).
  assert (0 <= (1 - y) * w) by (apply Qmult_le_0_compat; lra).
  assert (0 <= (1 + y) * w) by (apply Qmult_le_0_compat; lra).
  split; lra.
Qed.

Lemma blend_bounded (x y : AffectiveDimensions) (w : Q) :
  dims_bounded x -> dims_bounded y -> 0 <= w <= 1 -> dims_bounded (blend x y w).
Proof.
  intros (H1 & H2 & H3) (H4 & H5 & H6) Hw. unfold blend, dims_bounded; simpl.
  repeat split; apply interp_unit; assumption.
Qed.

Lemma decay_toward_bounded (x b : AffectiveDimensions) (r : Q) :
  dims_bounded x -> dims_bounded b -> 0 <= r <= 1 ->
  dims_bounded (decay_toward x b r).
Proof.
  intros (H1 & H2 & H3) (H4 & H5 & H6) Hr.
  assert (E : forall u v, u + (v - u) * r == u * (1 - r) + v * r) by (intros; ring).
  unfold dims_bounded, decay_toward, in_unit in *; simpl.
  rewrite !E. repeat split; apply interp_unit; assumption.
Qed.

(** Each axis of [decay_toward] scales the offset to the baseline by
    [1 - rate]. *)
Lemma decay_toward_dist_sq (x b : AffectiveDimensions) (r : Q) :
  dist_sq (decay_toward x b r) b == (1 - r) * (1 - r) * dist_sq x b.
Proof.
  unfold dist_sq, decay_toward; simpl. ring.
Qed.

Lemma dist_sq_nonneg (x y : AffectiveDimensions) : 0 <= dist_sq x y.
Proof.
  unfold dist_sq.
  assert (Hsq : forall q, 0 <= q * q)
    by (intro q; destruct (Qlt_le_dec q 0);
        [setoid_replace (q * q) with ((- q) * (- q)) by ring;
         apply Qmult_le_0_compat; lra
        |apply Qmult_le_0_compat; lra]).
  pose proof (Hsq (valence x - valence y)).
  pose proof (Hsq (arousal x - arousal y)).
  pose proof (Hsq (dominance x - dominance y)). lra.
Qed.

Lemma Q2R_nonneg (q : Q) : 0 <= q -> (0 <= Q2R q)%R.
Proof.
  intro H. replace 0%R with (Q2R 0) by (unfold Q2R; simpl; field).
  apply Qle_Rle. assumption.
Qed.

Lemma distance_to_le_iff (x y u v : AffectiveDimensions) :
  (distance_to x y <= distance_to u v)%R <-> dist_sq x y <= dist_sq u v.
Proof.
  unfold distance_to. split; intro H.
  - apply Rle_Qle. apply sqrt_le_0; auto using Q2R_nonneg, dist_sq_nonneg.
  - apply sqrt_le_1_alt. apply Qle_Rle. assumption.
Qed.

Lemma distance_to_lt_iff (x y u v : AffectiveDimensions) :
  (distance_to x y < distance_to u v)%R <-> dist_sq x y < dist_sq u v.
Proof.
  unfold distance_to. split; intro H.
  - apply Rlt_Qlt. apply sqrt_lt_0_alt. assumption.
  - apply sqrt_lt_1_alt. split.
    + apply Q2R_nonneg, dist_sq_nonneg.
    + apply Qlt_Rlt. assumption.
Qed.

(** For a rate in [[0, 2]] the offset to the baseline does not grow. *)
Lemma decay_toward_dist_sq_le (x b : AffectiveDimensions) (r : Q) :
  0 <= r <= 2 -> dist_sq (decay_toward x b r) b <= dist_sq x b.
Proof.
  intros Hr. rewrite decay_toward_dist_sq.
  pose proof (dist_sq_nonneg x b) as HD.
  assert (H1 : (1 - r) * (1 - r) <= 1) by nra.
  assert (H2 : 0 <= (1 - (1 - r) * (1 - r)) * dist_sq x b)
    by (apply Qmult_le_0_compat; lra).
  lra.
Qed.

Lemma decay_toward_distance_le (x b : AffectiveDimensions) (r : Q) :
  0 <= r <= 2 -> (distance_to (decay_toward x b r) b <= distance_to x b)%R.
Proof.
  intro Hr. apply distance_to_le_iff, decay_toward_dist_sq_le. assumption.
Qed.

(* ------------------------------------------------------------------ *)
(** ** C4: clamping of [blend] and [decay_toward] *)

(** C4 (counterexample): [blend] and [decay_toward] do not clamp: blending
    (1,0,0) with (-1,0,0) at weight 2, or decaying (1,0,0) toward
    (-1,0,0) at rate 2, gives valence -3, outside [[-1, 1]]. *)
Lemma C4_blend_decay_toward_unclamped :
  ~ dims_bounded (blend (mkDims 1 0 0) (mkDims (-1) 0 0) 2) /\
  ~ dims_bounded (decay_toward (mkDims 1 0 0) (mkDims (-1) 0 0) 2).
Proof.
  unfold dims_bounded, in_unit, blend, decay_toward; simpl.
  split; intros ((H & _) & _); apply (Qle_not_lt _ _ H); reflexivity.
Qed.

(** C4 (amended): [blend] and [decay_toward] apply no clamping of their
    own; their result lies in [[-1, 1]] on every axis whenever both input
    vectors do and the weight (resp. rate) lies in [[0, 1]]. *)
Theorem C4_blend_decay_toward_bounded (x y : AffectiveDimensions) (w : Q) :
  dims_bounded x -> dims_bounded y -> 0 <= w <= 1 ->
  dims_bounded (blend x y w) /\ dims_bounded (decay_toward x y w).
Proof.
  intros Hx Hy Hw. split.
  - apply blend_bounded; assumption.
  - apply decay_toward_bounded; assumption.
Qed.

Lemma C4_blend_decay_toward_bounded_witness :
  dims_bounded (mkDims 0.5 (-1) 1) /\ dims_bounded (mkDims (-0.3) 0.2 0) /\
  0 <= 0.4 <= 1 /\
  dims_bounded (blend (mkDims 0.5 (-1) 1) (mkDims (-0.3) 0.2 0) 0.4) /\
  dims_bounded (decay_toward (mkDims 0.5 (-1) 1) (mkDims (-0.3) 0.2 0) 0.4).
Proof.
  assert (Hx : dims_bounded (mkDims 0.5 (-1) 1))
    by (unfold dims_bounded, in_unit; simpl; repeat split; discriminate).
  assert (Hy : dims_bounded (mkDims (-0.3) 0.2 0))
    by (unfold dims_bounded, in_unit; simpl; repeat split; discriminate).
  assert (Hw : 0 <= 0.4 <= 1) by (split; discriminate).
  split; [exact Hx|]. split; [exact Hy|]. split; [exact Hw|].
  exact (C4_blend_decay_toward_bounded _ _ _ Hx Hy Hw).
Defined.

(* ------------------------------------------------------------------ *)
(** ** An hour without messages *)

Lemma not_in_unit_of (v : Q) :
  Qle_bool (-1) v && Qle_bool v 1 = false -> ~ in_unit v.
Proof.
  intros H [H1 H2]. apply Qle_bool_iff in H1, H2. rewrite H1, H2 in H.
  discriminate.
Qed.

Lemma in_unit_of (v : Q) :
  Qle_bool (-1) v && Qle_bool v 1 = true -> in_unit v.
Proof.
  intro H. apply andb_true_iff in H as [H1 H2].
  split; apply Qle_bool_iff; assumption.
Qed.

Lemma dims_bounded_of (d : AffectiveDimensions) :
  forallb (fun v => Qle_bool (-1) v && Qle_bool v 1)
    [valence d; arousal d; dominance d] = true -> dims_bounded d.
Proof.
  simpl. rewrite !andb_true_iff, !Qle_bool_iff.
  unfold dims_bounded, in_unit. tauto.
Qed.

Lemma state_bounded_of (st : AdvancedEmotionalState) :
  forallb (fun v => Qle_bool (-1) v && Qle_bool v 1)
    [valence (current_affect st); arousal (current_affect st);
     dominance (current_affect st); valence (baseline_affect st);
     arousal (baseline_affect st); dominance (baseline_affect st)] &&
  forallb (fun s => Qle_bool 0 (system_activations st s) &&
                    Qle_bool (system_activations st s) 1) all_systems &&
  Qle_bool 0 (emotional_inertia st) && Qle_bool (emotional_inertia st) 1 = true ->
  state_bounded st.
Proof.
  intro H. cbn [forallb all_systems] in H.
  rewrite ?andb_true_iff, ?Qle_bool_iff in H.
  unfold state_bounded, dims_bounded, in_unit, activations_bounded.
  repeat split; try tauto; destruct s; tauto.
Qed.

(** A message, then the state left alone for an hour: [decay()] with no
    argument takes the elapsed time from [last_update]. *)
Definition scenario_message : string :=
  "What a wonderful game, I am so happy!"%string.

Definition scenario_after_update (st0 : AdvancedEmotionalState)
  : AdvancedEmotionalState :=
  let '(a, st1) := appraise_message st0 scenario_message in
  update_affect 0 st1 a.

Definition scenario_after_hour (st0 : AdvancedEmotionalState)
  : AdvancedEmotionalState :=
  decay 3600 None (scenario_after_update st0).

(** C2 (failing input): from the factory's default state (created at
    time 0, in bounds), [appraise_message] and [update_affect] keep every
    value in bounds, but [decay()] one hour later uses a rate of 4.5 and
    leaves current valence at -1.341 and the PLAY activation negative. *)
Theorem C2_decay_after_an_hour_leaves_bounds :
  exists st0, create_default_state "c"%string 0 = Some st0 /\
    state_bounded st0 /\ state_bounded (scenario_after_update st0) /\
    ~ in_unit (valence (current_affect (scenario_after_hour st0))) /\
    system_activations (scenario_after_hour st0) PLAY < 0.
Proof.
  eexists. split; [reflexivity|].
  split; [apply state_bounded_of; vm_compute; reflexivity|].
  split; [apply state_bounded_of; vm_compute; reflexivity|].
  split; [apply not_in_unit_of; vm_compute; reflexivity|].
  vm_compute. reflexivity.
Qed.

(** C3 (failing input): in the same run the hour of decay moves current
    affect further away from the baseline than it was. *)
Theorem C3_decay_after_an_hour_moves_away :
  exists st0, create_default_state "c"%string 0 = Some st0 /\
    (distance_to (current_affect (scenario_after_update st0))
                 (baseline_affect (scenario_after_update st0))
     < distance_to (current_affect (scenario_after_hour st0))
                   (baseline_affect (scenario_after_hour st0)))%R.
Proof.
  eexists. split; [reflexivity|].
  apply distance_to_lt_iff. vm_compute. reflexivity.
Qed.

(* ------------------------------------------------------------------ *)
(** ** System influence and [update_affect] *)

Definition sum_inv (acc : AffectiveDimensions * Q) : Prop :=
  let '(infl, total) := acc in
  0 <= total /\
  - total <= valence infl <= total /\
  - total <= arousal infl <= total /\
  - total <= dominance infl <= total.

Lemma system_step_inv (acts : AffectiveSystem -> Q) acc s :
  sum_inv acc -> sum_inv (system_step acts acc s).
Proof.
  destruct acc as [[v a d] t]. unfold sum_inv, system_step; simpl.
  intros (H0 & H1 & H2 & H3).
  case_qltb 0.1 (acts s); simpl; [|tauto].
  destruct s; simpl; repeat split; lra.
Qed.

Lemma system_sum_inv (acts : AffectiveSystem -> Q) : sum_inv (system_sum acts).
Proof.
  unfold system_sum.
  assert (G : forall l acc, sum_inv acc ->
                sum_inv (fold_left (system_step acts) l acc)).
  { induction l as [|s l IH]; intros acc Hacc; simpl; [assumption|].
    apply IH, system_step_inv, Hacc. }
  apply G. unfold sum_inv; simpl. repeat split; lra.
Qed.

Lemma div_in_unit (c t : Q) : 0 < t -> - t <= c <= t -> in_unit (c / t).
Proof.
  intros Ht [H1 H2]. split.
  - apply Qle_shift_div_l; [assumption|]. lra.
  - apply Qle_shift_div_r; [assumption|]. lra.
Qed.

(** The activation-weighted average lies in the cube of the system
    coordinates, and is the zero vector when no system is active. *)
Lemma system_influence_bounded (acts : AffectiveSystem -> Q) :
  dims_bounded (system_influence acts).
Proof.
  pose proof (system_sum_inv acts) as Hinv.
  unfold system_influence.
  destruct (system_sum acts) as [[v a d] t].
  simpl in Hinv. destruct Hinv as (H0 & H1 & H2 & H3).
  case_qltb 0 t; unfold dims_bounded; simpl.
  - repeat split; apply div_in_unit; assumption.
  - unfold in_unit. repeat split; lra.
Qed.

Lemma to_dimensions_bounded (ap : AppraisalResult) :
  dims_bounded (to_dimensions ap).
Proof.
  unfold to_dimensions, dims_bounded; simpl.
  repeat split; apply clamp_unit_bounds.
Qed.

Lemma combined_target_bounded st ap : dims_bounded (combined_target_of st ap).
Proof.
  unfold combined_target_of. apply blend_bounded.
  - apply to_dimensions_bounded.
  - apply system_influence_bounded.
  - split; discriminate.
Qed.

Lemma transition_weight_bounds (i : Q) (c t : AffectiveDimensions) :
  0 <= i <= 1 -> 0 <= Qmin 1.0 (transition_resistance i c t) <= 1.
Proof.
  intros Hi. unfold transition_resistance.
  case_qltb (valence c) (-0.3); case_qltb 0 (valence t);
  case_qltb 0.3 (valence c); case_qltb (valence t) 0; simpl;
  split_minmax; lra.
Qed.

Lemma update_affect_current now st ap :
  current_affect (update_affect now st ap) =
  blend (current_affect st) (combined_target_of st ap)
    (Qmin 1.0 (transition_resistance (emotional_inertia st) (current_affect st)
               (combined_target_of st ap))).
Proof.
  destruct st; reflexivity.
Qed.

(** C10: [update_affect] keeps current affect in [[-1, 1]] on every axis,
    for every appraisal, for a state whose current affect is in bounds
    and whose inertia satisfies its field constraint [[0, 1]]; the system
    activations need no bound (only those above 0.1 are averaged). *)
Theorem C10_update_affect_bounded now (st : AdvancedEmotionalState)
    (ap : AppraisalResult) :
  dims_bounded (current_affect st) ->
  0 <= emotional_inertia st <= 1 ->
  dims_bounded (current_affect (update_affect now st ap)).
Proof.
  intros Hc Hi. rewrite update_affect_current.
  apply blend_bounded.
  - assumption.
  - apply combined_target_bounded.
  - apply transition_weight_bounds. assumption.
Qed.

(** A state as built by the factory with its defaults, at time 0. *)
Definition sample_state : AdvancedEmotionalState :=
  mkState "c"%string (mkDims 0.15 0.1 0.0) (mkDims 0.15 0.1 0.0) (fun _ => 0)
    None 0.25 0 [] 50.

Lemma sample_state_from_factory :
  create_default_state "c"%string 0 = Some sample_state.
Proof. reflexivity. Qed.

Lemma C10_update_affect_bounded_witness :
  dims_bounded (current_affect sample_state) /\
  0 <= emotional_inertia sample_state <= 1 /\
  dims_bounded (current_affect
    (update_affect 0 sample_state
       (fst (appraise_message sample_state scenario_message)))).
Proof.
  assert (H1 : dims_bounded (current_affect sample_state))
    by (apply dims_bounded_of; vm_compute; reflexivity).
  assert (H2 : 0 <= emotional_inertia sample_state <= 1)
    by (split; apply Qle_bool_iff; vm_compute; reflexivity).
  split; [exact H1|]. split; [exact H2|].
  exact (C10_update_affect_bounded _ _ _ H1 H2).
Defined.

(* ------------------------------------------------------------------ *)
(** ** C1: emotional contamination *)

Lemma combined_target_of_acts st ap :
  combined_target_of st ap =
  blend (to_dimensions ap) (system_influence (system_activations st)) 0.4.
Proof. reflexivity. Qed.

(** The valence moves of [update_affect] in the two directions, as the
    gap to the combined target times the weight. *)
Lemma C1_gap_products (i : Q) (xn xp tn tp : AffectiveDimensions) :
  (valence (blend xn tn (Qmin 1.0 (transition_resistance i xn tn))) - valence xn) *
    (valence xp - valence tp) ==
  (valence tn - valence xn) * (valence xp - valence tp) *
    Qmin 1.0 (transition_resistance i xn tn) /\
  (valence xp - valence (blend xp tp (Qmin 1.0 (transition_resistance i xp tp)))) *
    (valence tn - valence xn) ==
  (valence tn - valence xn) * (valence xp - valence tp) *
    Qmin 1.0 (transition_resistance i xp tp).
Proof. unfold blend; cbn [valence]. split; ring. Qed.

(** How the capped weights of an upward move from a negative valence and
    of a downward move from a positive valence compare. *)
Lemma C1_weights (i : Q) (xn xp tn tp : AffectiveDimensions) :
  0 <= i <= 1 -> valence xn < 0 -> 0 < valence tn ->
  0 < valence xp -> valence tp < 0 ->
  let wn := Qmin 1.0 (transition_resistance i xn tn) in
  let wp := Qmin 1.0 (transition_resistance i xp tp) in
  wn <= wp /\
  (i < 1 -> valence xn < -0.3 -> wn < wp) /\
  (0 < i < 1 -> 0.3 < valence xp -> wn < wp) /\
  (-0.3 <= valence xn -> valence xp <= 0.3 -> wn == wp).
Proof.
  intros Hi Hxn Htn Hxp Htp. cbv zeta. unfold transition_resistance. cbv zeta.
  case_qltb (valence xn) (-0.3); case_qltb 0 (valence tn); try lra;
  case_qltb 0.3 (valence xn); try lra;
  case_qltb (valence xp) (-0.3); try lra;
  case_qltb 0.3 (valence xp); case_qltb (valence tp) 0; try lra; cbn [andb];
  (split; [|split; [|split]]); intros; split_minmax; lra.
Qed.

(** C1, corrected.  (a) Two states that differ only in current valence,
    -0.5 and 0, given the same appraisal whose target valence is 0.8,
    end with the first strictly below the second.  (b) With equal
    inertia in [[0, 1]], the fraction of the valence gap to the combined
    target closed by [update_affect] from a negative state moving up is
    at most the fraction closed from a positive state moving down
    (written without division: [dn * gp <= dp * gn]); (c) it is strictly
    smaller when the inertia is below 1 and the negative valence is below
    -0.3, and (d) when the inertia lies strictly between 0 and 1 and the
    positive valence is above 0.3; (e) when neither valence lies beyond
    0.3 in absolute value the two fractions are equal. *)
Theorem C1_contamination_asymmetry :
  (forall now (st1 st2 : AdvancedEmotionalState) ap a d,
     current_affect st1 = mkDims (-0.5) a d ->
     current_affect st2 = mkDims 0 a d ->
     emotional_inertia st1 = emotional_inertia st2 ->
     0 <= emotional_inertia st1 <= 1 ->
     system_activations st1 = system_activations st2 ->
     valence (to_dimensions ap) == 0.8 ->
     valence (current_affect (update_affect now st1 ap)) <
     valence (current_affect (update_affect now st2 ap))) /\
  (forall now (sn sp : AdvancedEmotionalState) an ap,
     emotional_inertia sn = emotional_inertia sp ->
     0 <= emotional_inertia sn <= 1 ->
     valence (current_affect sn) < 0 ->
     0 < valence (combined_target_of sn an) ->
     0 < valence (current_affect sp) ->
     valence (combined_target_of sp ap) < 0 ->
     let dn := valence (current_affect (update_affect now sn an)) - valence (current_affect sn) in
     let gn := valence (combined_target_of sn an) - valence (current_affect sn) in
     let dp := valence (current_affect sp) - valence (current_affect (update_affect now sp ap)) in
     let gp := valence (current_affect sp) - valence (combined_target_of sp ap) in
     dn * gp <= dp * gn /\
     (emotional_inertia sn < 1 -> valence (current_affect sn) < -0.3 -> dn * gp < dp * gn) /\
     (0 < emotional_inertia sn < 1 -> 0.3 < valence (current_affect sp) ->
      dn * gp < dp * gn) /\
     (-0.3 <= valence (current_affect sn) -> valence (current_affect sp) <= 0.3 ->
      dn * gp == dp * gn)).
Proof.
  split.
  - intros now st1 st2 ap a d Hc1 Hc2 Hi Hib Hacts Ht.
    rewrite !update_affect_current.
    assert (HC : combined_target_of st1 ap = combined_target_of st2 ap)
      by (rewrite !combined_target_of_acts, Hacts; reflexivity).
    rewrite <- HC, <- Hi, Hc1, Hc2.
    pose proof (system_influence_bounded (system_activations st1)) as (Hs & _).
    destruct Hs as [Hs1 Hs2].
    assert (HCv : valence (combined_target_of st1 ap) ==
                  valence (to_dimensions ap) * (1 - 0.4) +
                  valence (system_influence (system_activations st1)) * 0.4)
      by reflexivity.
    remember (combined_target_of st1 ap) as T eqn:HT.
    remember (emotional_inertia st1) as i eqn:Hi'.
    clear HT Hi'.
    assert (HCpos : 0 < valence T) by lra.
    unfold blend, transition_resistance. cbn [valence].
    case_qltb (-0.5) (-0.3); [|lra]. case_qltb 0 (valence T); [|lra].
    cbn [andb].
    case_qltb (0 : Q) (-0.3); [lra|]. case_qltb 0.3 (0 : Q); [lra|].
    cbn [andb].
    assert (HCi : 0 <= valence T * (1 - i)) by (apply Qmult_le_0_compat; lra).
    split_minmax; nra.
  - intros now sn sp an ap Hi Hib Hvn HCn Hvp HCp. cbv zeta.
    rewrite !update_affect_current. rewrite <- Hi.
    destruct (C1_gap_products (emotional_inertia sn) (current_affect sn) (current_affect sp)
                (combined_target_of sn an) (combined_target_of sp ap)) as [E1 E2].
    destruct (C1_weights (emotional_inertia sn) (current_affect sn) (current_affect sp)
                (combined_target_of sn an) (combined_target_of sp ap) Hib Hvn HCn Hvp HCp)
      as (W1 & W2 & W3 & W4).
    set (wn := Qmin 1.0 (transition_resistance (emotional_inertia sn) (current_affect sn)
                           (combined_target_of sn an))) in *.
    set (wp := Qmin 1.0 (transition_resistance (emotional_inertia sn) (current_affect sp)
                           (combined_target_of sp ap))) in *.
    set (G := (valence (combined_target_of sn an) - valence (current_affect sn)) *
              (valence (current_affect sp) - valence (combined_target_of sp ap))) in *.
    assert (HG : 0 < G) by (unfold G; nra).
    split; [|split; [|split]].
    + assert (0 <= G * (wp - wn)) by (apply Qmult_le_0_compat; lra). lra.
    + intros H1 H2. assert (0 < G * (wp - wn)) by (specialize (W2 H1 H2); nra). lra.
    + intros H1 H2. assert (0 < G * (wp - wn)) by (specialize (W3 H1 H2); nra). lra.
    + intros H1 H2. specialize (W4 H1 H2).
      assert (G * wn == G * wp) by (rewrite W4; reflexivity). lra.
Qed.

(** Appraisals whose target valence is 0.8 and -0.8. *)
Definition appraisal_up : AppraisalResult := mkAppraisal 0 0.8 0 0.8 0 0 0 0 0 0.
Definition appraisal_down : AppraisalResult :=
  mkAppraisal 0 (-0.8) 0 (-0.8) 0 0 0 0 0 0.

Definition state_neg : AdvancedEmotionalState :=
  set_current_affect sample_state (mkDims (-0.5) 0.1 0.0).
Definition state_zero : AdvancedEmotionalState :=
  set_current_affect sample_state (mkDims 0 0.1 0.0).
Definition state_pos : AdvancedEmotionalState :=
  set_current_affect sample_state (mkDims 0.5 0.1 0.0).

Lemma C1_contamination_asymmetry_witness :
  valence (current_affect (update_affect 0 state_neg appraisal_up)) <
  valence (current_affect (update_affect 0 state_zero appraisal_up)) /\
  (valence (current_affect (update_affect 0 state_neg appraisal_up))
     - valence (current_affect state_neg)) *
    (valence (current_affect state_pos)
     - valence (combined_target_of state_pos appraisal_down))
  <
  (valence (current_affect state_pos)
     - valence (current_affect (update_affect 0 state_pos appraisal_down))) *
    (valence (combined_target_of state_neg appraisal_up)
     - valence (current_affect state_neg)).
Proof.
  assert (Hi : 0 <= emotional_inertia state_neg <= 1)
    by (split; apply Qle_bool_iff; vm_compute; reflexivity).
  split.
  - apply (proj1 C1_contamination_asymmetry 0 state_neg state_zero
             appraisal_up 0.1 0.0); try reflexivity. exact Hi.
  - assert (H1 : valence (current_affect state_neg) < 0) by reflexivity.
    assert (H2 : 0 < valence (combined_target_of state_neg appraisal_up)) by reflexivity.
    assert (H3 : 0 < valence (current_affect state_pos)) by reflexivity.
    assert (H4 : valence (combined_target_of state_pos appraisal_down) < 0) by reflexivity.
    destruct (proj2 C1_contamination_asymmetry 0 state_neg state_pos
                appraisal_up appraisal_down eq_refl Hi H1 H2 H3 H4) as (_ & Hs & _).
    apply Hs; reflexivity.
Defined.

(** States at valence -0.1 and 0.1 (inertia 0.25, no active system). *)
Definition state_neg_mild : AdvancedEmotionalState :=
  set_current_affect sample_state (mkDims (-0.1) 0.1 0.0).
Definition state_pos_mild : AdvancedEmotionalState :=
  set_current_affect sample_state (mkDims 0.1 0.1 0.0).

(** C1 counterexample: improving mood is not harder for every input.
    From valence -0.1 toward the target +0.48 and from valence 0.1
    toward the target -0.48, at inertia 0.25, [update_affect] closes
    the same fraction 3/4 of the gap in both directions: no
    contamination factor applies within [[-0.3, 0.3]]. *)
Theorem C1_mild_states_counterexample :
  valence (current_affect state_neg_mild) < 0 /\
  0 < valence (combined_target_of state_neg_mild appraisal_up) /\
  0 < valence (current_affect state_pos_mild) /\
  valence (combined_target_of state_pos_mild appraisal_down) < 0 /\
  (valence (current_affect (update_affect 0 state_neg_mild appraisal_up))
     - valence (current_affect state_neg_mild)) /
    (valence (combined_target_of state_neg_mild appraisal_up)
     - valence (current_affect state_neg_mild)) == 3 # 4 /\
  (valence (current_affect state_pos_mild)
     - valence (current_affect (update_affect 0 state_pos_mild appraisal_down))) /
    (valence (current_affect state_pos_mild)
     - valence (combined_target_of state_pos_mild appraisal_down)) == 3 # 4.
Proof.
  split; [reflexivity|]. split; [reflexivity|].
  split; [reflexivity|]. split; [reflexivity|].
  split; apply Qeq_bool_iff; vm_compute; reflexivity.
Qed.

(* ------------------------------------------------------------------ *)
(** ** C5: negativity-biased decay *)

Lemma decay_current now se st :
  current_affect (decay now se st) =
  decay_toward (current_affect st) (baseline_affect st)
    (decay_rate (match se with Some s => s | None => now - last_update st end)
       (current_affect st)).
Proof. destruct st; reflexivity. Qed.

Lemma decay_baseline now se st :
  baseline_affect (decay now se st) = baseline_affect st.
Proof. destruct st; reflexivity. Qed.

Definition with_affects (cur base : AffectiveDimensions) : AdvancedEmotionalState :=
  mkState "c"%string cur base (fun _ => 0) None 0.25 0 [] 50.

Definition c5_baseline : AffectiveDimensions := mkDims (-0.5) 0 0.
Definition c5_neg : AdvancedEmotionalState :=
  decay 60 (Some 60) (with_affects (mkDims (-0.5) 0 0) c5_baseline).
Definition c5_pos : AdvancedEmotionalState :=
  decay 60 (Some 60) (with_affects (mkDims 0.5 0 0) c5_baseline).

(** C5 (counterexample): with common baseline (-0.5, 0, 0), the state at
    valence -0.5 already sits on its baseline, so after one minute of decay
    its distance (0) is not greater than that of the state at +0.5. *)
Lemma C5_negative_baseline_counterexample :
  ~ (distance_to (current_affect c5_pos) (baseline_affect c5_pos)
     < distance_to (current_affect c5_neg) (baseline_affect c5_neg))%R.
Proof.
  rewrite distance_to_lt_iff. vm_compute. intro H. discriminate H.
Qed.

Lemma decay_rate_neg_pos (secs a d : Q) :
  0 < secs <= 800 ->
  0 < decay_rate secs (mkDims (-0.5) a d) /\
  decay_rate secs (mkDims (-0.5) a d) < decay_rate secs (mkDims 0.5 a d) /\
  decay_rate secs (mkDims 0.5 a d) <= 1.
Proof.
  intros Hs. unfold decay_rate. cbn [valence arousal].
  replace (Qltb (-0.5) (-0.2)) with true by reflexivity.
  replace (Qltb (0.5) (-0.2)) with false by reflexivity.
  replace (Qltb 0.2 0.5) with true by reflexivity.
  assert (Hb : 0 < 0.05 * (secs / 60.0) <= 2 # 3).
  { assert (E : 0.05 * (secs / 60.0) == secs / 1200)
      by (field; discriminate).
    rewrite E. split.
    - apply Qlt_shift_div_l; [reflexivity|]. lra.
    - apply Qle_shift_div_r; [reflexivity|]. lra. }
  set (b := 0.05 * (secs / 60.0)) in *.
  assert (Haf : 1 <= 1.0 + Qmax 0 a * 0.5) by (split_minmax; lra).
  set (af := 1.0 + Qmax 0 a * 0.5) in *.
  repeat split.
  - apply Qlt_shift_div_l; lra.
  - apply Qle_lt_trans with (b * 0.4).
    + apply Qle_shift_div_r; [lra|]. nra.
    + lra.
  - lra.
Qed.

(** C5 (amended): for two states with the same baseline whose valence is
    nonnegative (as the factory default 0.15), equal arousal and
    dominance, and current valence -0.5 and +0.5, decay over the same
    elapsed time in (0, 800] seconds (where no decay rate exceeds 1)
    leaves the negative state strictly farther from its baseline. *)
Theorem C5_decay_asymmetry now secs (sn sp : AdvancedEmotionalState) a d :
  baseline_affect sn = baseline_affect sp ->
  0 <= valence (baseline_affect sn) ->
  current_affect sn = mkDims (-0.5) a d ->
  current_affect sp = mkDims 0.5 a d ->
  0 < secs <= 800 ->
  (distance_to (current_affect (decay now (Some secs) sp))
               (baseline_affect (decay now (Some secs) sp))
   < distance_to (current_affect (decay now (Some secs) sn))
                 (baseline_affect (decay now (Some secs) sn)))%R.
Proof.
  intros Hb Hbv Hn Hp Hs.
  rewrite !decay_current, !decay_baseline, Hn, Hp, <- Hb.
  apply distance_to_lt_iff. rewrite !decay_toward_dist_sq.
  destruct (decay_rate_neg_pos secs a d Hs) as (H1 & H2 & H3).
  set (rn := decay_rate secs (mkDims (-0.5) a d)) in *.
  set (rp := decay_rate secs (mkDims 0.5 a d)) in *.
  set (B := baseline_affect sn) in *.
  unfold dist_sq; cbn [valence arousal dominance].
  set (R := (a - arousal B) * (a - arousal B) +
            (d - dominance B) * (d - dominance B)).
  assert (HR : 0 <= R).
  { pose proof (dist_sq_nonneg (mkDims 0 a d) (mkDims 0 (arousal B) (dominance B))) as HD.
    unfold dist_sq in HD; cbn [valence arousal dominance] in HD. unfold R. lra. }
  set (p := 1 - rp). set (q := 1 - rn).
  assert (Hpq : 0 <= p < q) by (unfold p, q; lra).
  assert (Hq : q < 1) by (unfold q; lra).
  set (Dn := (-0.5 - valence B) * (-0.5 - valence B) + R).
  set (Dp := (0.5 - valence B) * (0.5 - valence B) + R).
  assert (HD : Dp <= Dn) by (unfold Dn, Dp; nra).
  assert (HDn : 1 # 4 <= Dn) by (unfold Dn; nra).
  assert (E1 : (-0.5 - valence B) * (-0.5 - valence B) +
               (a - arousal B) * (a - arousal B) +
               (d - dominance B) * (d - dominance B) == Dn) by (unfold Dn, R; ring).
  assert (E2 : (0.5 - valence B) * (0.5 - valence B) +
               (a - arousal B) * (a - arousal B) +
               (d - dominance B) * (d - dominance B) == Dp) by (unfold Dp, R; ring).
  rewrite E1, E2.
  assert (Hsq : 0 < q * q - p * p) by nra.
  assert (0 < (q * q - p * p) * Dn) by (apply Qmult_lt_0_compat; lra).
  assert (0 <= p * p * (Dn - Dp))
    by (apply Qmult_le_0_compat; [apply Qmult_le_0_compat|]; lra).
  lra.
Qed.

Lemma C5_decay_asymmetry_witness :
  (distance_to (current_affect (decay 60%Q (Some 60%Q) state_pos))
               (baseline_affect (decay 60%Q (Some 60%Q) state_pos))
   < distance_to (current_affect (decay 60%Q (Some 60%Q) state_neg))
                 (baseline_affect (decay 60%Q (Some 60%Q) state_neg)))%R.
Proof.
  apply (C5_decay_asymmetry 60 60 state_neg state_pos 0.1 0.0).
  - reflexivity.
  - apply Qle_bool_iff. vm_compute. reflexivity.
  - reflexivity.
  - reflexivity.
  - split; [reflexivity | apply Qle_bool_iff; vm_compute; reflexivity].
Defined.

(* ------------------------------------------------------------------ *)
(** ** Patterns that do not match *)

Definition no_match (message_lower : string) (pats : list AppraisalPattern) : bool :=
  forallb (fun p => Nat.eqb (count_matches (keywords p) message_lower) 0) pats.

Lemma appraise_pattern_skip m acc p :
  count_matches (keywords p) m = 0%nat -> appraise_pattern m acc p = acc.
Proof.
  intro H. destruct acc. unfold appraise_pattern. rewrite H. reflexivity.
Qed.

Lemma fold_skip m pats acc :
  no_match m pats = true -> fold_left (appraise_pattern m) pats acc = acc.
Proof.
  revert acc. induction pats as [|p pats IH]; intros acc H; simpl; [reflexivity|].
  unfold no_match in H. simpl in H. apply andb_true_iff in H as [H1 H2].
  apply Nat.eqb_eq in H1. rewrite appraise_pattern_skip by assumption.
  apply IH. exact H2.
Qed.

(** When only pattern [p] of the table matches, [appraise_message] is
    that single loop iteration followed by the clamping. *)
Lemma appraise_single_match st message pre p post :
  APPRAISAL_PATTERNS = pre ++ p :: post ->
  no_match (lower message) pre = true ->
  no_match (lower message) post = true ->
  appraise_message st message =
  (let '(a, st') := appraise_pattern (lower message) (default_appraisal, st) p in
   (clamp_appraisal a, set_last_appraisal st' (clamp_appraisal a))).
Proof.
  intros E Hpre Hpost. unfold appraise_message, appraise_message_with. rewrite E, fold_left_app.
  rewrite (fold_skip _ pre) by assumption. cbn [fold_left].
  rewrite (fold_skip _ post) by assumption.
  reflexivity.
Qed.

(* ------------------------------------------------------------------ *)
(** ** C6: Scenario A *)

Definition scenario_a_message : string :=
  "Thank you so much, I am so grateful"%string.

Definition gratitude_pattern : AppraisalPattern :=
  nth 6 APPRAISAL_PATTERNS (mkPattern [] [] None).

Lemma scenario_a_split :
  APPRAISAL_PATTERNS =
  firstn 6 APPRAISAL_PATTERNS ++ gratitude_pattern :: skipn 7 APPRAISAL_PATTERNS.
Proof. reflexivity. Qed.

Lemma scenario_a_appraise st :
  appraise_message st scenario_a_message =
  (let '(a, st') :=
     appraise_pattern (lower scenario_a_message) (default_appraisal, st)
       gratitude_pattern in
   (clamp_appraisal a, set_last_appraisal st' (clamp_appraisal a))).
Proof.
  apply (appraise_single_match st scenario_a_message _ _ _ scenario_a_split);
    vm_compute; reflexivity.
Qed.

(** C6 (counterexample): on the factory's default state the message
    yields pleasantness 0.48, which is not above 0.5. *)
Lemma C6_scenario_a_counterexample :
  ~ (0.5 < pleasantness (fst (appraise_message sample_state scenario_a_message))).
Proof.
  vm_compute. intro H. discriminate H.
Qed.

(** C6 (amended): on every state only the Gratitude pattern matches the
    message ("thank" and "grateful": weight 0.6), so the pleasantness is
    exactly 0.48; CARE is activated with intensity 0.3 and its activation
    strictly increases whenever it was below 0.3 and the inertia is in
    [[0, 1)] (as on a freshly created state). *)
Theorem C6_scenario_a (st : AdvancedEmotionalState) :
  pleasantness (fst (appraise_message st scenario_a_message)) == 0.48 /\
  (system_activations st CARE < 0.3 -> 0 <= emotional_inertia st < 1 ->
   system_activations st CARE <
   system_activations (snd (appraise_message st scenario_a_message)) CARE).
Proof.
  rewrite scenario_a_appraise. unfold appraise_pattern.
  replace (count_matches (keywords gratitude_pattern) (lower scenario_a_message))
    with 2%nat by (vm_compute; reflexivity).
  replace (is_negative_pattern gratitude_pattern) with false by reflexivity.
  replace (system_activation gratitude_pattern) with (Some CARE) by reflexivity.
  cbn [Nat.ltb Nat.leb is_negative_system fst snd].
  split; [vm_compute; reflexivity|].
  intros Hc Hi.
  destruct st as [cid cur base acts la i lu h m]. cbn in Hc, Hi |- *.
  set (w := inject_Z 2 * 0.3 * 0.5).
  assert (Hw : w == 0.3) by (vm_compute; reflexivity).
  assert (Hcl : forall v, acts CARE < v -> v <= 1 -> acts CARE < clamp01 v).
  { intros v Hv1 Hv2. unfold clamp01. split_minmax; lra. }
  apply Hcl.
  - assert (0 < (w - acts CARE) * (1 - i))
      by (apply Qmult_lt_0_compat; lra).
    lra.
  - assert (0 <= (w - acts CARE) * (1 - i))
      by (apply Qmult_le_0_compat; lra).
    assert (0 <= (w - acts CARE) * i)
      by (apply Qmult_le_0_compat; lra).
    lra.
Qed.

Lemma C6_scenario_a_witness :
  pleasantness (fst (appraise_message sample_state scenario_a_message)) == 0.48 /\
  system_activations sample_state CARE <
  system_activations (snd (appraise_message sample_state scenario_a_message)) CARE.
Proof.
  destruct (C6_scenario_a sample_state) as [H1 H2].
  split; [exact H1|]. apply H2.
  - reflexivity.
  - split; [apply Qle_bool_iff; vm_compute|]; reflexivity.
Defined.

(* ------------------------------------------------------------------ *)
(** ** C7: construction *)

(** C7: a baseline valence of 2 is accepted by the factory and stored
    as is, although it lies outside [[-1, 1]]. *)
Lemma C7_baseline_out_of_range_accepted :
  exists st, create_advanced_emotional_state "c"%string 2 0 0 0.25 0 = Some st /\
             ~ in_unit (valence (baseline_affect st)).
Proof.
  eexists. split; [reflexivity|].
  apply not_in_unit_of. vm_compute. reflexivity.
Qed.

(** The factory rejects an inertia outside [[0, 1]] (the
    pydantic field constraint raises a validation error) and accepts
    every other call, storing the baseline components unvalidated and
    unclamped as both baseline and current affect. *)
Theorem create_state_validation cid bv ba bd i now :
  (create_advanced_emotional_state cid bv ba bd i now = None <->
   ~ (0 <= i <= 1)) /\
  (forall st, create_advanced_emotional_state cid bv ba bd i now = Some st ->
   baseline_affect st = mkDims bv ba bd /\ current_affect st = mkDims bv ba bd /\
   emotional_inertia st = i).
Proof.
  unfold create_advanced_emotional_state.
  destruct (Qle_bool 0 i) eqn:E1; destruct (Qle_bool i 1) eqn:E2; simpl;
    split; try (intros st Hst; inversion Hst; subst; simpl; tauto);
    try (intros st Hst; discriminate Hst).
  - split; [discriminate|]. intros H. exfalso. apply H.
    split; apply Qle_bool_iff; assumption.
  - split; [|reflexivity]. intros _ [_ H]. apply Qle_bool_iff in H. congruence.
  - split; [|reflexivity]. intros _ [H _]. apply Qle_bool_iff in H. congruence.
  - split; [|reflexivity]. intros _ [H _]. apply Qle_bool_iff in H. congruence.
Qed.


(* ------------------------------------------------------------------ *)
(** ** C8: appraisal of text without keywords *)

(** C8: [appraise_message] is a total function of the text; for any
    lowering function [str_lower] (so for Python's [str.lower]), when no
    pattern has a keyword occurring in the lower-cased text (every
    [matches] count is 0), it returns the all-zero [AppraisalResult()]
    and changes nothing but [last_appraisal]. *)
Theorem C8_appraise_no_match (str_lower : string -> string)
    (st : AdvancedEmotionalState) (message : string) :
  no_match (str_lower message) APPRAISAL_PATTERNS = true ->
  appraise_message_with str_lower st message =
  (default_appraisal, set_last_appraisal st default_appraisal).
Proof.
  intro H. unfold appraise_message_with. rewrite fold_skip by assumption.
  reflexivity.
Qed.

Lemma C8_appraise_no_match_witness :
  appraise_message sample_state ""%string =
  (default_appraisal, set_last_appraisal sample_state default_appraisal).
Proof.
  apply (C8_appraise_no_match lower). vm_compute. reflexivity.
Defined.

(* ------------------------------------------------------------------ *)
(** ** C9: nearest emotion label *)

Section ClosestScan.

Variable d : AffectiveDimensions.

(** Entry [i] of [tbl] is [(l, c)], no entry is nearer to [d], and every
    entry before [i] is strictly farther. *)
Definition first_min (tbl : list (EmotionLabel * AffectiveDimensions))
    (i : nat) (l : EmotionLabel) (c : AffectiveDimensions) : Prop :=
  nth_error tbl i = Some (l, c) /\
  (forall j l' c', nth_error tbl j = Some (l', c') -> dist_sq d c <= dist_sq d c') /\
  (forall j l' c', (j < i)%nat -> nth_error tbl j = Some (l', c') ->
                   dist_sq d c < dist_sq d c').

Lemma nth_error_snoc {A} (pre : list A) (x y : A) (j : nat) :
  nth_error (pre ++ [x]) j = Some y ->
  nth_error pre j = Some y \/ (j = length pre /\ y = x).
Proof.
  intro H. destruct (Nat.lt_ge_cases j (length pre)) as [Hj|Hj].
  - left. rewrite nth_error_app1 in H by assumption. exact H.
  - right. rewrite nth_error_app2 in H by assumption.
    destruct (j - length pre)%nat eqn:E; simpl in H.
    + split; [lia|]. congruence.
    + destruct n; discriminate.
Qed.

Lemma first_min_step pre i l c e ce :
  first_min pre i l c ->
  if Qltb (dist_sq d ce) (dist_sq d c)
  then first_min (pre ++ [(e, ce)]) (length pre) e ce
  else first_min (pre ++ [(e, ce)]) i l c.
Proof.
  intros (Hi & Hall & Hbefore).
  assert (Hlen : (i < length pre)%nat)
    by (apply nth_error_Some; rewrite Hi; discriminate).
  case_qltb (dist_sq d ce) (dist_sq d c); repeat split.
  - rewrite nth_error_app2 by lia. rewrite Nat.sub_diag. reflexivity.
  - intros j l' c' Hj. apply nth_error_snoc in Hj as [Hj|[_ Hj]].
    + pose proof (Hall _ _ _ Hj). lra.
    + inversion Hj; subst. lra.
  - intros j l' c' Hlt Hj. apply nth_error_snoc in Hj as [Hj|[Hj _]]; [|lia].
    pose proof (Hall _ _ _ Hj). lra.
  - rewrite nth_error_app1 by assumption. exact Hi.
  - intros j l' c' Hj. apply nth_error_snoc in Hj as [Hj|[_ Hj]].
    + apply (Hall _ _ _ Hj).
    + inversion Hj; subst. assumption.
  - intros j l' c' Hlt Hj. apply nth_error_snoc in Hj as [Hj|[Hj _]]; [|lia].
    apply (Hbefore _ _ _ Hlt Hj).
Qed.

Lemma closest_scan_first_min rest pre i l c :
  first_min pre i l c ->
  exists i' c', first_min (pre ++ rest) i' (fst (closest_scan d rest l (Some (dist_sq d c)))) c' /\
                snd (closest_scan d rest l (Some (dist_sq d c))) = Some (dist_sq d c').
Proof.
  revert pre i l c. induction rest as [|[e ce] rest IH]; intros pre i l c H.
  - exists i, c. rewrite app_nil_r. split; [exact H | reflexivity].
  - pose proof (first_min_step pre i l c e ce H) as Hs.
    replace (pre ++ (e, ce) :: rest) with ((pre ++ [(e, ce)]) ++ rest)
      by (rewrite <- app_assoc; reflexivity).
    simpl. destruct (Qltb (dist_sq d ce) (dist_sq d c)).
    + apply (IH _ _ _ _ Hs).
    + apply (IH _ _ _ _ Hs).
Qed.

(** The first iteration, from [min_distance = inf]. *)
Lemma closest_scan_start tbl x rest cl :
  tbl = x :: rest ->
  closest_scan d tbl cl None = closest_scan d rest (fst x) (Some (dist_sq d (snd x))).
Proof.
  intros ->. destruct x. reflexivity.
Qed.

End ClosestScan.

Lemma sqrt_Q2R_0 : sqrt (Q2R 0) = 0%R.
Proof.
  replace (Q2R 0) with 0%R by (unfold Q2R; simpl; field). apply sqrt_0.
Qed.

(** C9: [get_closest_emotion] maps (0,0,0) to NEUTRAL (with confidence
    1), and in general returns the first label of [EMOTION_COORDINATES]
    whose coordinates are at minimal Euclidean distance from the input
    (no entry nearer, every earlier entry strictly farther), paired with
    [max(0, 1 - min_distance / 2)]. *)
Theorem C9_get_closest_emotion (d : AffectiveDimensions) :
  get_closest_emotion (mkDims 0 0 0) = (NEUTRAL, 1%R) /\
  exists i c,
    nth_error EMOTION_COORDINATES i = Some (fst (get_closest_emotion d), c) /\
    (forall j l' c', nth_error EMOTION_COORDINATES j = Some (l', c') ->
       (distance_to d c <= distance_to d c')%R) /\
    (forall j l' c', (j < i)%nat -> nth_error EMOTION_COORDINATES j = Some (l', c') ->
       (distance_to d c < distance_to d c')%R) /\
    snd (get_closest_emotion d) = Rmax 0 (1 - distance_to d c / 2).
Proof.
  split.
  - unfold get_closest_emotion.
    destruct (closest_scan (mkDims 0 0 0) EMOTION_COORDINATES NEUTRAL None)
      as [cl m] eqn:E.
    vm_compute in E. injection E as <- <-.
    unfold confidence_of. rewrite (Qeq_eqR _ 0) by reflexivity.
    rewrite sqrt_Q2R_0. f_equal.
    replace (1 - 0 / 2)%R with 1%R by field.
    apply Rmax_right. apply Rle_0_1.
  - assert (H0 : first_min d [(EXCITEMENT, mkDims 0.7 0.8 0.5)] 0 EXCITEMENT
                   (mkDims 0.7 0.8 0.5)).
    { repeat split.
      - intros j l' c' Hj. destruct j as [|[|j]]; simpl in Hj; try discriminate.
        inversion Hj; subst. apply Qle_refl.
      - intros j l' c' Hlt. lia. }
    destruct (closest_scan_first_min d (tl EMOTION_COORDINATES) _ _ _ _ H0)
      as (i & c & (Hi & Hall & Hbefore) & Hm).
    exists i, c. unfold get_closest_emotion.
    rewrite (closest_scan_start d EMOTION_COORDINATES
               (EXCITEMENT, mkDims 0.7 0.8 0.5) (tl EMOTION_COORDINATES)
               NEUTRAL eq_refl).
    cbn [fst snd].
    destruct (closest_scan d (tl EMOTION_COORDINATES) EXCITEMENT
                (Some (dist_sq d (mkDims 0.7 0.8 0.5)))) as [cl m] eqn:E.
    cbn [fst snd] in Hi, Hm, Hall, Hbefore |- *. subst m.
    replace ([(EXCITEMENT, mkDims 0.7 0.8 0.5)] ++ tl EMOTION_COORDINATES)
      with EMOTION_COORDINATES in Hi, Hall, Hbefore by reflexivity.
    split; [|split; [|split]].
    + exact Hi.
    + intros j l' c' Hj. apply distance_to_le_iff. apply (Hall _ _ _ Hj).
    + intros j l' c' Hlt Hj. apply distance_to_lt_iff.
      apply (Hbefore _ _ _ Hlt Hj).
    + reflexivity.
Qed.

Lemma C9_get_closest_emotion_witness :
  fst (get_closest_emotion (mkDims 0.8 0.6 0.4)) = JOY /\
  exists i c,
    nth_error EMOTION_COORDINATES i
      = Some (fst (get_closest_emotion (mkDims 0.8 0.6 0.4)), c) /\
    (forall j l' c', (j < i)%nat -> nth_error EMOTION_COORDINATES j = Some (l', c') ->
       (distance_to (mkDims 0.8 0.6 0.4) c < distance_to (mkDims 0.8 0.6 0.4) c')%R).
Proof.
  split; [vm_compute; reflexivity|].
  destruct (C9_get_closest_emotion (mkDims 0.8 0.6 0.4)) as [_ (i & c & Hi & _ & Hb & _)].
  exists i, c. split; [exact Hi | exact Hb].
Defined.

(* ------------------------------------------------------------------ *)
(** ** Further properties of the module *)

Ltac rlra := Stdlib.micromega.Lra.lra.

Lemma Q2R_0 : Q2R 0 = 0%R.
Proof. unfold Q2R; simpl; field. Qed.

Lemma Q2R_1 : Q2R 1 = 1%R.
Proof. unfold Q2R; simpl; field. Qed.

Lemma confidence_of_zero (m : Q) : m == 0 -> confidence_of (Some m) = 1%R.
Proof.
  intro Hm. unfold confidence_of.
  rewrite (Qeq_eqR m 0 Hm), sqrt_Q2R_0.
  replace (1 - 0 / 2)%R with 1%R by field. apply Rmax_right, Rle_0_1.
Qed.

Lemma confidence_bounds (md : option Q) : (0 <= confidence_of md <= 1)%R.
Proof.
  destruct md as [m|]; simpl; [|split; [apply Rle_refl | apply Rle_0_1]].
  pose proof (sqrt_pos (Q2R m)). split; [apply Rmax_l|].
  apply Rmax_lub; rlra.
Qed.

Lemma confidence_gt_half_spec (md : option Q) :
  confidence_gt_half md = true <-> (1 / 2 < confidence_of md)%R.
Proof.
  destruct md as [m|]; simpl.
  - rewrite Qltb_true. split; intro H.
    + assert (Hs : (sqrt (Q2R m) < 1)%R).
      { destruct (Rle_or_lt 0 (Q2R m)) as [H0|H0].
        - rewrite <- sqrt_1. apply sqrt_lt_1_alt. split; [exact H0|].
          rewrite <- Q2R_1. apply Qlt_Rlt, H.
        - rewrite sqrt_neg_0 by rlra. rlra. }
      eapply Rlt_le_trans; [|apply Rmax_r]. rlra.
    + destruct (Qlt_le_dec m 1) as [Hl|Hl]; [exact Hl|exfalso].
      assert (H1 : (1 <= sqrt (Q2R m))%R).
      { rewrite <- sqrt_1. apply sqrt_le_1_alt. rewrite <- Q2R_1. apply Qle_Rle, Hl. }
      revert H. unfold Rmax. destruct (Rle_dec 0 (1 - sqrt (Q2R m) / 2)); rlra.
  - split; intro H; [discriminate|]. exfalso. rlra.
Qed.

(** The nearest-label scan over the whole table, with its minimum. *)
Lemma closest_scan_spec (d : AffectiveDimensions) :
  exists i c,
    first_min d EMOTION_COORDINATES i (fst (closest_scan d EMOTION_COORDINATES NEUTRAL None)) c /\
    snd (closest_scan d EMOTION_COORDINATES NEUTRAL None) = Some (dist_sq d c).
Proof.
  assert (H0 : first_min d [(EXCITEMENT, mkDims 0.7 0.8 0.5)] 0 EXCITEMENT
                 (mkDims 0.7 0.8 0.5)).
  { repeat split.
    - intros j l' c' Hj. destruct j as [|[|j]]; simpl in Hj; try discriminate.
      inversion Hj; subst. apply Qle_refl.
    - intros j l' c' Hlt. lia. }
  destruct (closest_scan_first_min d (tl EMOTION_COORDINATES) _ _ _ _ H0)
    as (i & c & Hf & Hm).
  rewrite (closest_scan_start d EMOTION_COORDINATES
             (EXCITEMENT, mkDims 0.7 0.8 0.5) (tl EMOTION_COORDINATES)
             NEUTRAL eq_refl).
  cbn [fst snd].
  replace ([(EXCITEMENT, mkDims 0.7 0.8 0.5)] ++ tl EMOTION_COORDINATES)
    with EMOTION_COORDINATES in Hf by reflexivity.
  exists i, c. split; assumption.
Qed.

Lemma Qsq_zero (q : Q) : q * q <= 0 -> q == 0.
Proof.
  intro H. destruct (Qlt_le_dec q 0) as [Hq|Hq].
  - exfalso. nra.
  - destruct (Qlt_le_dec 0 q) as [Hq'|Hq']; [exfalso; nra | lra].
Qed.

Lemma dist_sq_zero (x y : AffectiveDimensions) :
  dist_sq x y == 0 <->
  valence x == valence y /\ arousal x == arousal y /\ dominance x == dominance y.
Proof.
  unfold dist_sq. split.
  - intro H.
    assert (Ha : forall q, 0 <= q * q)
      by (intro q; destruct (Qlt_le_dec q 0); nra).
    pose proof (Ha (valence x - valence y)). pose proof (Ha (arousal x - arousal y)).
    pose proof (Ha (dominance x - dominance y)).
    repeat split; [pose proof (Qsq_zero (valence x - valence y)) as Z
                  | pose proof (Qsq_zero (arousal x - arousal y)) as Z
                  | pose proof (Qsq_zero (dominance x - dominance y)) as Z];
      (assert (Z' : _ == 0) by (apply Z; lra)); lra.
  - intros (H1 & H2 & H3).
    assert (E1 : valence x - valence y == 0) by lra.
    assert (E2 : arousal x - arousal y == 0) by lra.
    assert (E3 : dominance x - dominance y == 0) by lra.
    rewrite E1, E2, E3. reflexivity.
Qed.

Lemma get_closest_emotion_on_entry (d : AffectiveDimensions) (l : EmotionLabel) :
  closest_scan d EMOTION_COORDINATES NEUTRAL None = (l, Some (dist_sq d d)) ->
  get_closest_emotion d = (l, 1%R).
Proof.
  intro E. unfold get_closest_emotion. rewrite E.
  rewrite confidence_of_zero; [reflexivity|].
  apply dist_sq_zero. repeat split; reflexivity.
Qed.

(** [get_closest_emotion] recovers every label of [EMOTION_COORDINATES]
    from its own coordinates, with confidence 1: no two labels share
    coordinates. *)
Theorem get_closest_emotion_table_round_trip (l : EmotionLabel) (c : AffectiveDimensions) :
  In (l, c) EMOTION_COORDINATES -> get_closest_emotion c = (l, 1%R).
Proof.
  intro H. unfold EMOTION_COORDINATES in H. simpl in H.
  repeat (destruct H as [H|H];
          [injection H as <- <-; apply get_closest_emotion_on_entry;
           vm_compute; reflexivity|]).
  contradiction.
Qed.

Lemma get_closest_emotion_table_round_trip_witness :
  get_closest_emotion (mkDims 0.6 0.5 (-0.3)) = (AWE, 1%R).
Proof.
  apply get_closest_emotion_table_round_trip. simpl. tauto.
Defined.

(** The confidence of [get_closest_emotion] lies in [[0, 1]], and is 1
    exactly when the input coincides with the coordinates of a label. *)
Theorem get_closest_emotion_confidence (d : AffectiveDimensions) :
  (0 <= snd (get_closest_emotion d) <= 1)%R /\
  (snd (get_closest_emotion d) = 1%R <->
   exists l c, In (l, c) EMOTION_COORDINATES /\
     valence d == valence c /\ arousal d == arousal c /\ dominance d == dominance c).
Proof.
  destruct (closest_scan_spec d) as (i & c & (Hi & Hall & _) & Hm).
  unfold get_closest_emotion.
  destruct (closest_scan d EMOTION_COORDINATES NEUTRAL None) as [cl md] eqn:E.
  cbn [fst snd] in Hi, Hm |- *. subst md.
  split; [apply confidence_bounds|]. split.
  - intro H1. exists cl, c. split; [eapply nth_error_In; exact Hi|].
    apply dist_sq_zero.
    unfold confidence_of in H1. pose proof (Q2R_nonneg _ (dist_sq_nonneg d c)) as Hn.
    assert (Hs : sqrt (Q2R (dist_sq d c)) = 0%R).
    { pose proof (sqrt_pos (Q2R (dist_sq d c))).
      revert H1. unfold Rmax.
      destruct (Rle_dec 0 (1 - sqrt (Q2R (dist_sq d c)) / 2)); intro H1; rlra. }
    apply sqrt_eq_0 in Hs; [|exact Hn].
    apply eqR_Qeq. rewrite Hs, Q2R_0. reflexivity.
  - intros (l & c' & Hin & Hc).
    apply In_nth_error in Hin as [j Hj].
    pose proof (Hall _ _ _ Hj) as Hle.
    apply confidence_of_zero.
    assert (Z : dist_sq d c' == 0) by (apply dist_sq_zero; exact Hc).
    pose proof (dist_sq_nonneg d c). lra.
Qed.

Lemma get_closest_emotion_confidence_witness :
  snd (get_closest_emotion (mkDims 0.7 0.4 0.7)) = 1%R.
Proof.
  apply (proj2 (get_closest_emotion_confidence (mkDims 0.7 0.4 0.7))).
  exists PRIDE, (mkDims 0.7 0.4 0.7). split; [simpl; tauto|].
  repeat split; reflexivity.
Defined.

(* ------------------------------------------------------------------ *)
(** ** [_activate_system] and [appraise_message] *)

Lemma AffectiveSystem_eqb_spec (a b : AffectiveSystem) :
  AffectiveSystem_eqb a b = true <-> a = b.
Proof.
  destruct a, b; simpl; split; intro H; congruence.
Qed.

Lemma set_activation_other acts system v s :
  s <> system -> set_activation acts system v s = acts s.
Proof.
  intro H. unfold set_activation.
  destruct (AffectiveSystem_eqb system s) eqn:E; [|reflexivity].
  apply AffectiveSystem_eqb_spec in E. congruence.
Qed.

Lemma set_activation_same acts system v : set_activation acts system v system = v.
Proof.
  unfold set_activation. rewrite (proj2 (AffectiveSystem_eqb_spec system system)); reflexivity.
Qed.

Lemma activate_system_acts st system intensity :
  system_activations (activate_system st system intensity) =
  set_activation (system_activations st) system
    (clamp01 (system_activations st system +
              (intensity - system_activations st system) * (1 - emotional_inertia st))).
Proof. destruct st; reflexivity. Qed.

(** [_activate_system] changes the activation of its system only; the
    new value lies in [[0, 1]], and, with the inertia in [[0, 1]] and
    the old value and the intensity in [[0, 1]], it lies between the old
    value and the intensity. *)
Theorem activate_system_moves_toward st system intensity :
  0 <= emotional_inertia st <= 1 ->
  (forall s, s <> system ->
     system_activations (activate_system st system intensity) s = system_activations st s) /\
  0 <= system_activations (activate_system st system intensity) system <= 1 /\
  (0 <= system_activations st system <= 1 -> 0 <= intensity <= 1 ->
   Qmin (system_activations st system) intensity <=
     system_activations (activate_system st system intensity) system <=
   Qmax (system_activations st system) intensity).
Proof.
  intro Hi. rewrite activate_system_acts, set_activation_same.
  split; [intros s Hs; apply set_activation_other; exact Hs|].
  split; [apply clamp01_bounds|].
  intros Hc Hn.
  set (c := system_activations st system) in *.
  set (k := 1 - emotional_inertia st).
  assert (Hk : 0 <= k <= 1) by (unfold k; lra).
  assert (B : Qmin c intensity <= c + (intensity - c) * k <= Qmax c intensity).
  { destruct (Qlt_le_dec c intensity) as [Hlt|Hle].
    - assert (0 <= (intensity - c) * k) by (apply Qmult_le_0_compat; lra).
      assert (0 <= (intensity - c) * (1 - k)) by (apply Qmult_le_0_compat; lra).
      split_minmax; lra.
    - assert (0 <= (c - intensity) * k) by (apply Qmult_le_0_compat; lra).
      assert (0 <= (c - intensity) * (1 - k)) by (apply Qmult_le_0_compat; lra).
      split_minmax; lra. }
  unfold clamp01. revert B. split_minmax; lra.
Qed.

Lemma activate_system_moves_toward_witness :
  system_activations (activate_system sample_state CARE 0.3) CARE <= 0.3.
Proof.
  destruct (activate_system_moves_toward sample_state CARE 0.3) as (_ & _ & H).
  - split; [apply Qle_bool_iff; vm_compute; reflexivity | apply Qle_bool_iff; vm_compute; reflexivity].
  - apply Qle_trans with (Qmax (system_activations sample_state CARE) 0.3).
    + apply H; split; apply Qle_bool_iff; vm_compute; reflexivity.
    + apply Qle_bool_iff. vm_compute. reflexivity.
Defined.

(** The state fields that [appraise_message] leaves alone. *)
Definition appraisal_frame (st st' : AdvancedEmotionalState) : Prop :=
  character_id st' = character_id st /\ current_affect st' = current_affect st /\
  baseline_affect st' = baseline_affect st /\
  emotional_inertia st' = emotional_inertia st /\ last_update st' = last_update st /\
  affect_history st' = affect_history st /\ max_history st' = max_history st.

Lemma appraisal_frame_refl st : appraisal_frame st st.
Proof. repeat split. Qed.

Lemma appraisal_frame_trans s1 s2 s3 :
  appraisal_frame s1 s2 -> appraisal_frame s2 s3 -> appraisal_frame s1 s3.
Proof. unfold appraisal_frame. intuition congruence. Qed.

Lemma activate_system_frame st system intensity :
  appraisal_frame st (activate_system st system intensity).
Proof. destruct st; repeat split. Qed.

(** What one pattern iteration does to the state: the frame is kept,
    the activations stay bounded, and an activation changes only if the
    pattern matches and names its system. *)
Definition pattern_step_ok (message_lower : string) (p : AppraisalPattern)
    (st st' : AdvancedEmotionalState) : Prop :=
  appraisal_frame st st' /\
  (activations_bounded (system_activations st) ->
   activations_bounded (system_activations st')) /\
  (forall s, (system_activation p = Some s ->
              count_matches (keywords p) message_lower = 0%nat) ->
   system_activations st' s = system_activations st s).

Lemma appraise_pattern_ok m a st p :
  pattern_step_ok m p st (snd (appraise_pattern m (a, st) p)).
Proof.
  unfold appraise_pattern.
  destruct (0 <? count_matches (keywords p) m)%nat eqn:Em;
    [|cbn [snd]; split; [apply appraisal_frame_refl | split; auto]].
  cbn [snd].
  destruct (system_activation p) as [s0|] eqn:Es;
    [|split; [apply appraisal_frame_refl | split; auto]].
  set (w := if is_negative_system s0 then _ else _).
  split; [apply activate_system_frame|]. split.
  - intros Hb s. rewrite activate_system_acts.
    destruct (AffectiveSystem_eqb s0 s) eqn:E.
    + apply AffectiveSystem_eqb_spec in E. subst s. rewrite set_activation_same.
      apply clamp01_bounds.
    + rewrite set_activation_other; [apply Hb|].
      intro Heq. subst s. rewrite (proj2 (AffectiveSystem_eqb_spec s0 s0)) in E
        by reflexivity. discriminate.
  - intros s Hs. rewrite activate_system_acts.
    apply set_activation_other. intro Heq. subst s.
    specialize (Hs Es). rewrite Hs in Em. discriminate.
Qed.

Lemma appraise_fold_ok m pats a st :
  let st' := snd (fold_left (appraise_pattern m) pats (a, st)) in
  appraisal_frame st st' /\
  (activations_bounded (system_activations st) ->
   activations_bounded (system_activations st')) /\
  (forall s, (forall p, In p pats -> system_activation p = Some s ->
              count_matches (keywords p) m = 0%nat) ->
   system_activations st' s = system_activations st s).
Proof.
  revert a st. induction pats as [|p pats IH]; intros a st; cbv zeta; cbn [fold_left In].
  - split; [apply appraisal_frame_refl | split; auto].
  - destruct (appraise_pattern m (a, st) p) as [a1 st1] eqn:E1.
    specialize (IH a1 st1); cbv zeta in IH.
    pose proof (appraise_pattern_ok m a st p) as (F1 & B1 & S1).
    rewrite E1 in F1, B1, S1. cbn [snd] in F1, B1, S1.
    destruct IH as (F2 & B2 & S2).
    split; [eapply appraisal_frame_trans; eassumption|]. split.
    + intro Hb. apply B2, B1, Hb.
    + intros s Hs. rewrite S2, S1; [reflexivity| |].
      * intro Hp. apply (Hs p); [left; reflexivity | exact Hp].
      * intros p' Hin Hp'. apply (Hs p'); [right; exact Hin | exact Hp'].
Qed.

Lemma appraise_message_with_unfold str_lower st message :
  exists a st1,
    fold_left (appraise_pattern (str_lower message)) APPRAISAL_PATTERNS
      (default_appraisal, st) = (a, st1) /\
    appraise_message_with str_lower st message =
      (clamp_appraisal a, set_last_appraisal st1 (clamp_appraisal a)).
Proof.
  unfold appraise_message_with.
  destruct (fold_left (appraise_pattern (str_lower message)) APPRAISAL_PATTERNS
              (default_appraisal, st)) as [a st1] eqn:E.
  exists a, st1. split; reflexivity.
Qed.

Lemma appraise_message_unfold st message :
  exists a st1,
    fold_left (appraise_pattern (lower message)) APPRAISAL_PATTERNS
      (default_appraisal, st) = (a, st1) /\
    appraise_message st message =
      (clamp_appraisal a, set_last_appraisal st1 (clamp_appraisal a)).
Proof. apply appraise_message_with_unfold. Qed.

Lemma clamp_appraisal_bounded (a : AppraisalResult) (f : AppraisalField) :
  in_unit (get_field (clamp_appraisal a) f).
Proof. destruct f; apply clamp_unit_bounds. Qed.

(** [appraise_message] returns an appraisal with all ten fields in
    [[-1, 1]], stores it as [last_appraisal], and changes no field of
    the state but [last_appraisal] and the system activations. *)
Theorem appraise_message_result_and_frame st message :
  (forall f, in_unit (get_field (fst (appraise_message st message)) f)) /\
  last_appraisal (snd (appraise_message st message)) =
    Some (fst (appraise_message st message)) /\
  appraisal_frame st (snd (appraise_message st message)).
Proof.
  destruct (appraise_message_unfold st message) as (a & st1 & E & ->).
  cbn [fst snd].
  pose proof (appraise_fold_ok (lower message) APPRAISAL_PATTERNS default_appraisal st)
    as (F & _ & _).
  rewrite E in F. cbn [snd] in F.
  split; [intro f; apply clamp_appraisal_bounded|].
  split; [destruct st1; reflexivity|].
  eapply appraisal_frame_trans; [exact F|]. destruct st1; repeat split.
Qed.

(** For any lowering function [str_lower] (so for Python's [str.lower]),
    [appraise_message] keeps every activation in [[0, 1]], and leaves
    unchanged the activation of every system that no matching pattern
    (one with a keyword in the lower-cased text) names. *)
Theorem appraise_message_activations str_lower st message :
  (activations_bounded (system_activations st) ->
   activations_bounded
     (system_activations (snd (appraise_message_with str_lower st message)))) /\
  (forall s, (forall p, In p APPRAISAL_PATTERNS -> system_activation p = Some s ->
              count_matches (keywords p) (str_lower message) = 0%nat) ->
   system_activations (snd (appraise_message_with str_lower st message)) s =
   system_activations st s).
Proof.
  destruct (appraise_message_with_unfold str_lower st message) as (a & st1 & E & ->).
  cbn [snd].
  pose proof (appraise_fold_ok (str_lower message) APPRAISAL_PATTERNS default_appraisal st)
    as (_ & B & S).
  rewrite E in B, S. cbn [snd] in B, S.
  replace (system_activations (set_last_appraisal st1 (clamp_appraisal a)))
    with (system_activations st1) by (destruct st1; reflexivity).
  split; [exact B | exact S].
Qed.

Lemma lower_ascii_idem (c : ascii) : lower_ascii (lower_ascii c) = lower_ascii c.
Proof.
  destruct c as [b0 b1 b2 b3 b4 b5 b6 b7].
  destruct b0, b1, b2, b3, b4, b5, b6, b7; vm_compute; reflexivity.
Qed.

(** Byte facts behind the idempotence of [lower], checked on all 256 bytes. *)
Lemma lower_byte_facts (c : ascii) :
  ((nat_of_ascii c =? 195)%nat = true -> latin1_upper c = false) /\
  (latin1_upper c = false -> latin1_upper (lower_ascii c) = false) /\
  ((nat_of_ascii c =? 195)%nat = false -> (nat_of_ascii (lower_ascii c) =? 195)%nat = false) /\
  (latin1_upper c = true ->
   latin1_upper (latin1_lower c) = false /\
   (nat_of_ascii (latin1_lower c) =? 195)%nat = false /\
   lower_ascii (latin1_lower c) = latin1_lower c).
Proof.
  destruct c as [b0 b1 b2 b3 b4 b5 b6 b7].
  destruct b0, b1, b2, b3, b4, b5, b6, b7; vm_compute;
    intuition (try reflexivity; try discriminate).
Qed.

(** The first byte of a lowered text that does not start with a Latin-1
    capital second byte is no such byte either. *)
Lemma lower_head (c : ascii) (s : string) :
  latin1_upper c = false ->
  exists c' t, lower (String c s) = String c' t /\ latin1_upper c' = false.
Proof.
  intro Hc. pose proof (lower_byte_facts c) as (H195 & Hl & _ & _).
  cbn [lower]. destruct (nat_of_ascii c =? 195)%nat eqn:E.
  - destruct s as [|c2 s'].
    + exists c, ""%string. split; [reflexivity | exact Hc].
    + destruct (latin1_upper c2); eexists _, _; (split; [reflexivity | exact Hc]).
  - eexists _, _. split; [reflexivity | apply Hl, Hc].
Qed.

Lemma lower_c3_other (c c2 : ascii) (t : string) :
  (nat_of_ascii c =? 195)%nat = true -> latin1_upper c2 = false ->
  lower (String c (String c2 t)) = String c (lower (String c2 t)).
Proof. intros E U. simpl lower at 1. rewrite E, U. reflexivity. Qed.

Lemma lower_c3_upper (c c2 : ascii) (t : string) :
  (nat_of_ascii c =? 195)%nat = true -> latin1_upper c2 = true ->
  lower (String c (String c2 t)) = String c (String (latin1_lower c2) (lower t)).
Proof. intros E U. simpl lower at 1. rewrite E, U. reflexivity. Qed.

Lemma lower_c3_end (c : ascii) :
  (nat_of_ascii c =? 195)%nat = true -> lower (String c EmptyString) = String c EmptyString.
Proof. intros E. simpl lower. rewrite E. reflexivity. Qed.

Lemma lower_byte (c : ascii) (t : string) :
  (nat_of_ascii c =? 195)%nat = false -> lower (String c t) = String (lower_ascii c) (lower t).
Proof. intros E. simpl lower at 1. rewrite E. reflexivity. Qed.

Lemma lower_idem_len (n : nat) :
  forall s, (String.length s <= n)%nat -> lower (lower s) = lower s.
Proof.
  induction n as [|n IH]; intros s Hs.
  - destruct s; [reflexivity | simpl in Hs; lia].
  - destruct s as [|c s']; [reflexivity|]. simpl in Hs.
    pose proof (lower_byte_facts c) as (_ & _ & Hn & _).
    destruct (nat_of_ascii c =? 195)%nat eqn:E.
    + destruct s' as [|c2 s''].
      * rewrite !(lower_c3_end c E). reflexivity.
      * simpl in Hs. destruct (latin1_upper c2) eqn:U.
        -- pose proof (lower_byte_facts c2) as (_ & _ & _ & Hu).
           destruct (Hu U) as (U' & N' & L').
           rewrite (lower_c3_upper c c2 s'' E U), (lower_c3_other c _ _ E U').
           rewrite (lower_byte _ _ N'), L', (IH s'') by lia. reflexivity.
        -- rewrite !(lower_c3_other c c2 s'' E U).
           destruct (lower_head c2 s'' U) as (c' & t & Ht & U').
           rewrite Ht, (lower_c3_other c c' t E U'), <- Ht.
           rewrite (IH (String c2 s'')) by (simpl; lia). reflexivity.
    + rewrite (lower_byte c s' E), (lower_byte _ _ (Hn eq_refl)), lower_ascii_idem.
      rewrite (IH s') by lia. reflexivity.
Qed.

Lemma lower_idem (s : string) : lower (lower s) = lower s.
Proof. apply (lower_idem_len (String.length s)). lia. Qed.

(** Keyword matching ignores letter case (ASCII and Latin-1): a message
    and its lower-cased form are appraised identically, in result and in
    state. *)
Theorem appraise_message_case_insensitive st message :
  appraise_message st (lower message) = appraise_message st message.
Proof.
  unfold appraise_message, appraise_message_with. rewrite lower_idem. reflexivity.
Qed.

(** Helpers for the activations and the frame, shared by later proofs. *)
Lemma appraise_message_acts st message :
  (activations_bounded (system_activations st) ->
   activations_bounded (system_activations (snd (appraise_message st message)))) /\
  (forall s, (forall p, In p APPRAISAL_PATTERNS -> system_activation p = Some s ->
              count_matches (keywords p) (lower message) = 0%nat) ->
   system_activations (snd (appraise_message st message)) s = system_activations st s) /\
  appraisal_frame st (snd (appraise_message st message)).
Proof.
  destruct (appraise_message_unfold st message) as (a & st1 & E & ->).
  cbn [snd].
  pose proof (appraise_fold_ok (lower message) APPRAISAL_PATTERNS default_appraisal st)
    as (F & B & S).
  rewrite E in F, B, S. cbn [snd] in F, B, S.
  replace (system_activations (set_last_appraisal st1 (clamp_appraisal a)))
    with (system_activations st1) by (destruct st1; reflexivity).
  split; [exact B|]. split; [exact S|].
  eapply appraisal_frame_trans; [exact F|]. destruct st1; repeat split.
Qed.

Lemma appraise_message_activations_witness :
  activations_bounded
    (system_activations (snd (appraise_message sample_state scenario_a_message))).
Proof.
  apply (proj1 (appraise_message_activations lower sample_state scenario_a_message)).
  intro s. split; apply Qle_bool_iff; destruct s; vm_compute; reflexivity.
Defined.

(* ------------------------------------------------------------------ *)
(** ** [update_affect] and [_record_state] *)

Lemma trim_history_snoc (h : list HistoryEntry) (e : HistoryEntry) (m : nat) :
  (exists pre, trim_history (h ++ [e]) m = pre ++ [e]) /\
  length (trim_history (h ++ [e]) m) =
    (if (m =? 0)%nat then S (length h) else Nat.min (S (length h)) m).
Proof.
  unfold trim_history. rewrite length_app. cbn [length].
  destruct (m <? length h + 1)%nat eqn:E.
  - apply Nat.ltb_lt in E. destruct m as [|k].
    + split; [exists h; reflexivity|]. rewrite length_app. simpl. lia.
    + rewrite skipn_app.
      replace (length h + 1 - S k - length h)%nat with 0%nat by lia.
      cbn [skipn]. split; [eexists; reflexivity|].
      rewrite length_app, length_skipn. cbn [length Nat.eqb]. lia.
  - apply Nat.ltb_ge in E. split; [exists h; reflexivity|].
    rewrite length_app. cbn [length]. destruct m; cbn [Nat.eqb]; lia.
Qed.

Lemma update_affect_fields now st ap :
  baseline_affect (update_affect now st ap) = baseline_affect st /\
  system_activations (update_affect now st ap) = system_activations st /\
  emotional_inertia (update_affect now st ap) = emotional_inertia st /\
  max_history (update_affect now st ap) = max_history st /\
  affect_history (update_affect now st ap) =
    trim_history
      (affect_history st ++
       [mkHistory now (valence (current_affect (update_affect now st ap)))
          (arousal (current_affect (update_affect now st ap)))
          (dominance (current_affect (update_affect now st ap)))
          (map (fun s => (s, system_activations st s)) all_systems)])
      (max_history st).
Proof. destruct st; repeat split. Qed.

(** [update_affect] appends one history entry, recording the time and
    the new current affect and activations; the history then holds
    [min(n + 1, max_history)] entries, except that with [max_history = 0]
    the slice [[-0:]] keeps the whole list, which then grows without
    bound. *)
Theorem update_affect_history now st ap :
  (exists pre, affect_history (update_affect now st ap) =
     pre ++ [mkHistory now (valence (current_affect (update_affect now st ap)))
               (arousal (current_affect (update_affect now st ap)))
               (dominance (current_affect (update_affect now st ap)))
               (map (fun s => (s, system_activations (update_affect now st ap) s))
                  all_systems)]) /\
  (max_history st = 0%nat ->
   length (affect_history (update_affect now st ap)) = S (length (affect_history st))) /\
  ((0 < max_history st)%nat ->
   length (affect_history (update_affect now st ap)) =
     Nat.min (S (length (affect_history st))) (max_history st)).
Proof.
  destruct (update_affect_fields now st ap) as (_ & Hacts & _ & _ & Hh).
  rewrite Hacts, Hh.
  destruct (trim_history_snoc (affect_history st)
              (mkHistory now (valence (current_affect (update_affect now st ap)))
                 (arousal (current_affect (update_affect now st ap)))
                 (dominance (current_affect (update_affect now st ap)))
                 (map (fun s => (s, system_activations st s)) all_systems))
              (max_history st)) as [Hpre Hlen].
  split; [exact Hpre|]. rewrite Hlen. split; intro Hm.
  - rewrite Hm. reflexivity.
  - destruct (max_history st); [lia | reflexivity].
Qed.

Lemma update_affect_history_witness :
  length (affect_history (update_affect 1 (mkState "c"%string (mkDims 0.15 0.1 0.0)
            (mkDims 0.15 0.1 0.0) (fun _ => 0) None 0.25 0 [] 0) appraisal_up)) = 1%nat.
Proof.
  apply (proj1 (proj2 (update_affect_history 1 (mkState "c"%string (mkDims 0.15 0.1 0.0)
            (mkDims 0.15 0.1 0.0) (fun _ => 0) None 0.25 0 [] 0) appraisal_up))).
  reflexivity.
Defined.

Lemma update_affect_state_bounded_aux now st ap :
  state_bounded st -> state_bounded (update_affect now st ap).
Proof.
  intros (Hc & Hb & Ha & Hi).
  destruct (update_affect_fields now st ap) as (Hb' & Ha' & Hi' & _).
  split; [|rewrite Hb', Ha', Hi'; tauto].
  rewrite update_affect_current. apply blend_bounded.
  - assumption.
  - apply combined_target_bounded.
  - apply transition_weight_bounds. assumption.
Qed.

(** [update_affect] keeps every bound of the state: current and baseline
    affect in [[-1, 1]], activations in [[0, 1]], inertia in [[0, 1]]. *)
Theorem update_affect_state_bounded now st ap :
  state_bounded st -> state_bounded (update_affect now st ap).
Proof. apply update_affect_state_bounded_aux. Qed.

Lemma sample_state_bounded : state_bounded sample_state.
Proof.
  repeat split; try (apply Qle_bool_iff; vm_compute; reflexivity);
    apply Qle_bool_iff; vm_compute; reflexivity.
Qed.

Lemma update_affect_state_bounded_witness :
  state_bounded (update_affect 1 sample_state appraisal_down).
Proof. apply update_affect_state_bounded. apply sample_state_bounded. Defined.

(** With no activation above 0.1, the system influence is the zero
    vector (the [total_activation > 0] guard), and [update_affect]
    blends toward 0.6 times the appraisal's dimensions. *)
Theorem update_affect_no_active_system (st : AdvancedEmotionalState) (ap : AppraisalResult) :
  (forall s, system_activations st s <= 0.1) ->
  system_influence (system_activations st) = mkDims 0 0 0 /\
  combined_target_of st ap = blend (to_dimensions ap) (mkDims 0 0 0) 0.4.
Proof.
  intro H.
  assert (Hs : system_sum (system_activations st) = (default_dims, 0)).
  { unfold system_sum, all_systems. cbn [fold_left].
    unfold system_step.
    repeat rewrite (proj2 (Qltb_false _ _) (H _)). reflexivity. }
  assert (Hi : system_influence (system_activations st) = mkDims 0 0 0).
  { unfold system_influence. rewrite Hs. reflexivity. }
  split; [exact Hi|]. unfold combined_target_of. rewrite Hi. reflexivity.
Qed.

Lemma update_affect_no_active_system_witness :
  combined_target_of sample_state appraisal_up =
  blend (to_dimensions appraisal_up) (mkDims 0 0 0) 0.4.
Proof.
  apply update_affect_no_active_system. intro s.
  apply Qle_bool_iff. destruct s; vm_compute; reflexivity.
Defined.

(* ------------------------------------------------------------------ *)
(** ** [decay] *)

Lemma decay_fields now se st :
  current_affect (decay now se st) =
    decay_toward (current_affect st) (baseline_affect st)
      (decay_rate (elapsed_of now se st) (current_affect st)) /\
  baseline_affect (decay now se st) = baseline_affect st /\
  (forall s, system_activations (decay now se st) s =
     system_activations st s *
     system_decay_factor s (decay_rate (elapsed_of now se st) (current_affect st))) /\
  emotional_inertia (decay now se st) = emotional_inertia st /\
  last_update (decay now se st) = now.
Proof. destruct st; repeat split. Qed.

Lemma base_rate_eq (secs : Q) : 0.05 * (secs / 60.0) == secs / 1200.
Proof. field. Qed.

Lemma decay_rate_bounds (secs : Q) (c : AffectiveDimensions) :
  0 <= secs -> 0 <= decay_rate secs c <= secs / 800.
Proof.
  intro Hs. unfold decay_rate.
  set (b := 0.05 * (secs / 60.0)).
  assert (Hb : b == secs / 1200) by apply base_rate_eq.
  assert (H8 : secs / 800 == b * 1.5) by (rewrite Hb; field).
  assert (Hb0 : 0 <= b) by (rewrite Hb; apply Qle_shift_div_l; [reflexivity | lra]).
  rewrite H8.
  case_qltb (valence c) (-0.2); [|case_qltb 0.2 (valence c)]; cbv zeta.
  - assert (Haf : 1 <= 1.0 + Qmax 0 (arousal c) * 0.5) by (split_minmax; lra).
    set (af := 1.0 + Qmax 0 (arousal c) * 0.5) in *.
    assert (0 <= b * (af - 1)) by (apply Qmult_le_0_compat; lra).
    split.
    + apply Qle_shift_div_l; lra.
    + apply Qle_shift_div_r; lra.
  - lra.
  - lra.
Qed.

Lemma decay_rate_neg (secs : Q) (c : AffectiveDimensions) :
  secs < 0 -> decay_rate secs c < 0.
Proof.
  intro Hs. unfold decay_rate.
  set (b := 0.05 * (secs / 60.0)).
  assert (Hb : b == secs / 1200) by apply base_rate_eq.
  assert (Hb0 : b < 0).
  { rewrite Hb. apply Qlt_shift_div_r; [reflexivity | lra]. }
  case_qltb (valence c) (-0.2); [|case_qltb 0.2 (valence c)]; cbv zeta.
  - assert (Haf : 1 <= 1.0 + Qmax 0 (arousal c) * 0.5) by (split_minmax; lra).
    set (af := 1.0 + Qmax 0 (arousal c) * 0.5) in *.
    apply Qlt_shift_div_r; lra.
  - lra.
  - lra.
Qed.

Lemma decay_rate_pos (secs : Q) (c : AffectiveDimensions) :
  0 < secs -> 0 < decay_rate secs c.
Proof.
  intro Hs. unfold decay_rate.
  set (b := 0.05 * (secs / 60.0)).
  assert (Hb : b == secs / 1200) by apply base_rate_eq.
  assert (Hb0 : 0 < b).
  { rewrite Hb. apply Qlt_shift_div_l; [reflexivity | lra]. }
  case_qltb (valence c) (-0.2); [|case_qltb 0.2 (valence c)]; cbv zeta.
  - assert (Haf : 1 <= 1.0 + Qmax 0 (arousal c) * 0.5) by (split_minmax; lra).
    set (af := 1.0 + Qmax 0 (arousal c) * 0.5) in *.
    apply Qlt_shift_div_l; lra.
  - lra.
  - lra.
Qed.

Lemma decay_rate_zero (secs : Q) (c : AffectiveDimensions) :
  secs == 0 -> decay_rate secs c == 0.
Proof.
  intro Hs. unfold decay_rate.
  set (b := 0.05 * (secs / 60.0)).
  assert (Hb : b == 0) by (unfold b; rewrite Hs; reflexivity).
  case_qltb (valence c) (-0.2); [|case_qltb 0.2 (valence c)]; cbv zeta.
  - rewrite Hb. unfold Qdiv. ring.
  - rewrite Hb. ring.
  - exact Hb.
Qed.

Lemma factor_unit (s : AffectiveSystem) (r : Q) :
  0 <= r <= 1 -> 0 <= system_decay_factor s r <= 1.
Proof. intro Hr. destruct s; simpl; lra. Qed.

Lemma decay_state_bounded_aux now se st :
  0 <= elapsed_of now se st <= 800 -> state_bounded st -> state_bounded (decay now se st).
Proof.
  intros Hs (Hc & Hb & Ha & Hi).
  destruct (decay_fields now se st) as (Ec & Eb & Ea & Ei & _).
  pose proof (decay_rate_bounds (elapsed_of now se st) (current_affect st) (proj1 Hs)) as Hr.
  set (r := decay_rate (elapsed_of now se st) (current_affect st)) in *.
  assert (Hr1 : 0 <= r <= 1).
  { split; [lra|]. apply Qle_trans with (elapsed_of now se st / 800); [lra|].
    apply Qle_shift_div_r; [reflexivity | lra]. }
  split; [rewrite Ec; apply decay_toward_bounded; assumption|].
  split; [rewrite Eb; assumption|].
  split; [|rewrite Ei; assumption].
  intro s. rewrite Ea.
  pose proof (factor_unit s r Hr1) as Hf. specialize (Ha s).
  set (f := system_decay_factor s r) in *. set (a := system_activations st s) in *.
  assert (0 <= a * f) by (apply Qmult_le_0_compat; lra).
  assert (0 <= (1 - a) * f) by (apply Qmult_le_0_compat; lra).
  split; lra.
Qed.

(** [decay] keeps every bound of the state when the elapsed time lies in
    [[0, 800]] seconds, where every rate it computes is at most 1. *)
Theorem decay_state_bounded now se st :
  0 <= elapsed_of now se st <= 800 -> state_bounded st -> state_bounded (decay now se st).
Proof. apply decay_state_bounded_aux. Qed.

Lemma decay_state_bounded_witness :
  state_bounded (decay 600 None sample_state).
Proof.
  apply decay_state_bounded.
  - split; apply Qle_bool_iff; vm_compute; reflexivity.
  - apply sample_state_bounded.
Defined.

(** [decay] never moves the current affect away from the baseline when
    the elapsed time lies in [[0, 1600]] seconds (every rate is then at
    most 2, and the offset to the baseline is scaled by [|1 - rate|]). *)
Theorem decay_distance_non_increasing now se st :
  0 <= elapsed_of now se st <= 1600 ->
  (distance_to (current_affect (decay now se st)) (baseline_affect (decay now se st))
   <= distance_to (current_affect st) (baseline_affect st))%R.
Proof.
  intro Hs. destruct (decay_fields now se st) as (Ec & Eb & _).
  rewrite Ec, Eb. apply decay_toward_distance_le.
  pose proof (decay_rate_bounds (elapsed_of now se st) (current_affect st) (proj1 Hs)).
  split; [lra|].
  apply Qle_trans with (elapsed_of now se st / 800); [lra|].
  apply Qle_shift_div_r; [reflexivity | lra].
Qed.

Lemma decay_distance_non_increasing_witness :
  (distance_to (current_affect (decay 1600 None state_neg))
               (baseline_affect (decay 1600 None state_neg))
   <= distance_to (current_affect state_neg) (baseline_affect state_neg))%R.
Proof.
  apply decay_distance_non_increasing.
  split; apply Qle_bool_iff; vm_compute; reflexivity.
Defined.

Lemma distance_to_pos (x y : AffectiveDimensions) :
  (0 < distance_to x y)%R -> 0 < dist_sq x y.
Proof.
  unfold distance_to. intro H.
  destruct (Qlt_le_dec 0 (dist_sq x y)) as [Hl|Hl]; [exact Hl|exfalso].
  rewrite sqrt_neg_0 in H; [rlra|].
  rewrite <- Q2R_0. apply Qle_Rle, Hl.
Qed.

Lemma distance_to_pos_of (x y : AffectiveDimensions) :
  0 < dist_sq x y -> (0 < distance_to x y)%R.
Proof.
  intro H. unfold distance_to. apply sqrt_lt_R0.
  rewrite <- Q2R_0. apply Qlt_Rlt, H.
Qed.

(** With a negative elapsed time (a [decay()] call whose clock reads
    earlier than [last_update]), the rate is negative and [decay] moves
    the current affect strictly away from the baseline. *)
Theorem decay_negative_elapsed_moves_away now se st :
  elapsed_of now se st < 0 ->
  (0 < distance_to (current_affect st) (baseline_affect st))%R ->
  (distance_to (current_affect st) (baseline_affect st) <
   distance_to (current_affect (decay now se st)) (baseline_affect (decay now se st)))%R.
Proof.
  intros Hs Hd. apply distance_to_pos in Hd.
  destruct (decay_fields now se st) as (Ec & Eb & _).
  rewrite Ec, Eb. apply distance_to_lt_iff. rewrite decay_toward_dist_sq.
  pose proof (decay_rate_neg (elapsed_of now se st) (current_affect st) Hs) as Hr.
  set (r := decay_rate (elapsed_of now se st) (current_affect st)) in *.
  set (D := dist_sq (current_affect st) (baseline_affect st)) in *.
  assert (H1 : 0 < ((1 - r) * (1 - r) - 1)) by nra.
  assert (0 < ((1 - r) * (1 - r) - 1) * D) by (apply Qmult_lt_0_compat; lra).
  lra.
Qed.

Lemma decay_negative_elapsed_moves_away_witness :
  (distance_to (current_affect state_neg) (baseline_affect state_neg) <
   distance_to (current_affect (decay (-60) None state_neg))
               (baseline_affect (decay (-60) None state_neg)))%R.
Proof.
  apply decay_negative_elapsed_moves_away.
  - reflexivity.
  - apply distance_to_pos_of. reflexivity.
Defined.

Lemma decay_toward_rate_zero (x b : AffectiveDimensions) (r : Q) :
  r == 0 ->
  valence (decay_toward x b r) == valence x /\
  arousal (decay_toward x b r) == arousal x /\
  dominance (decay_toward x b r) == dominance x.
Proof.
  intro H. unfold decay_toward; cbn [valence arousal dominance].
  rewrite H. split; [ring|split; ring].
Qed.

Lemma factor_rate_zero (a : Q) (s : AffectiveSystem) (r : Q) :
  r == 0 -> a * system_decay_factor s r == a.
Proof. intro H. destruct s; simpl; rewrite H; ring. Qed.

(** Two [decay()] calls at the same instant: the second one finds zero
    elapsed time ([last_update] was set to [now] by the first) and
    changes neither the affect nor the activations. *)
Theorem decay_same_instant_idempotent now st :
  valence (current_affect (decay now None (decay now None st))) ==
    valence (current_affect (decay now None st)) /\
  arousal (current_affect (decay now None (decay now None st))) ==
    arousal (current_affect (decay now None st)) /\
  dominance (current_affect (decay now None (decay now None st))) ==
    dominance (current_affect (decay now None st)) /\
  (forall s, system_activations (decay now None (decay now None st)) s ==
             system_activations (decay now None st) s) /\
  last_update (decay now None (decay now None st)) = now.
Proof.
  set (st1 := decay now None st).
  destruct (decay_fields now None st1) as (Ec & _ & Ea & _ & El).
  assert (Hz : elapsed_of now None st1 == 0).
  { unfold elapsed_of. destruct (decay_fields now None st) as (_ & _ & _ & _ & E1).
    fold st1 in E1. rewrite E1. ring. }
  pose proof (decay_rate_zero _ (current_affect st1) Hz) as Hr.
  set (r := decay_rate (elapsed_of now None st1) (current_affect st1)) in *.
  rewrite Ec. destruct (decay_toward_rate_zero (current_affect st1) (baseline_affect st1) r Hr)
    as (H1 & H2 & H3).
  split; [exact H1|]. split; [exact H2|]. split; [exact H3|]. split; [|exact El].
  intro s. rewrite Ea. apply factor_rate_zero, Hr.
Qed.

(** For a positive elapsed time, the negative systems (RAGE, FEAR,
    PANIC_GRIEF) keep more of an equal positive activation than SEEKING
    and LUST, which keep more than PLAY and CARE. *)
Theorem decay_negative_systems_persist now se st sn sm sp :
  0 < elapsed_of now se st ->
  is_negative_system sn = true -> In sm [SEEKING; LUST] -> In sp [PLAY; CARE] ->
  0 < system_activations st sp ->
  system_activations st sn == system_activations st sp ->
  system_activations st sm == system_activations st sp ->
  system_activations (decay now se st) sp < system_activations (decay now se st) sm /\
  system_activations (decay now se st) sm < system_activations (decay now se st) sn.
Proof.
  intros Hs Hn Hm Hp Ha En Em.
  destruct (decay_fields now se st) as (_ & _ & Ea & _).
  rewrite !Ea, En, Em.
  pose proof (decay_rate_pos _ (current_affect st) Hs) as Hr.
  set (r := decay_rate (elapsed_of now se st) (current_affect st)) in *.
  set (a := system_activations st sp) in *.
  assert (Hf : system_decay_factor sp r < system_decay_factor sm r /\
               system_decay_factor sm r < system_decay_factor sn r).
  { destruct sn; try discriminate Hn;
    (destruct Hm as [<-|[<-|[]]]); (destruct Hp as [<-|[<-|[]]]); simpl; lra. }
  destruct Hf as [Hf1 Hf2].
  split; apply Qmult_lt_l; assumption.
Qed.

Lemma decay_negative_systems_persist_witness :
  let st := set_system_activations sample_state (fun _ => 0.5) in
  system_activations (decay 60 None st) PLAY < system_activations (decay 60 None st) SEEKING /\
  system_activations (decay 60 None st) SEEKING < system_activations (decay 60 None st) RAGE.
Proof.
  intro st.
  apply (decay_negative_systems_persist 60 None st RAGE SEEKING PLAY).
  - reflexivity.
  - reflexivity.
  - simpl; tauto.
  - simpl; tauto.
  - reflexivity.
  - reflexivity.
  - reflexivity.
Defined.

(* ------------------------------------------------------------------ *)
(** ** Sequences of calls from a freshly created state *)

Lemma create_state_bounded cid bv ba bd i now st :
  create_advanced_emotional_state cid bv ba bd i now = Some st ->
  in_unit bv -> in_unit ba -> in_unit bd -> state_bounded st.
Proof.
  unfold create_advanced_emotional_state.
  destruct (Qle_bool 0 i) eqn:E1; destruct (Qle_bool i 1) eqn:E2; simpl;
    intro H; try discriminate H.
  injection H as <-. apply Qle_bool_iff in E1, E2.
  intros Hv Ha Hd. unfold state_bounded, dims_bounded, activations_bounded; simpl.
  repeat split; try apply Hv; try apply Ha; try apply Hd; try assumption; discriminate.
Qed.

Lemma call_state_bounded st st' :
  call (fun secs => 0 <= secs <= 800) st st' -> state_bounded st -> state_bounded st'.
Proof.
  intros C Hb. destruct C as [st message|now st ap|now se st Hs].
  - destruct (appraise_message_acts st message) as (B & _ & F).
    destruct Hb as (Hc & Hbase & Ha & Hi).
    destruct F as (_ & Fc & Fb & Fi & _).
    split; [rewrite Fc; exact Hc|]. split; [rewrite Fb; exact Hbase|].
    split; [apply B, Ha | rewrite Fi; exact Hi].
  - apply update_affect_state_bounded_aux, Hb.
  - apply decay_state_bounded_aux; assumption.
Qed.

(** Bounds invariant: from a state created by the factory with a
    baseline in [[-1, 1]], every sequence of [appraise_message],
    [update_affect] and [decay] calls, each [decay] over an elapsed time
    in [[0, 800]] seconds, keeps the current and baseline affect in
    [[-1, 1]] and every activation in [[0, 1]]. *)
Theorem calls_keep_state_bounded cid bv ba bd i now st st' :
  create_advanced_emotional_state cid bv ba bd i now = Some st ->
  in_unit bv -> in_unit ba -> in_unit bd ->
  calls (fun secs => 0 <= secs <= 800) st st' -> state_bounded st'.
Proof.
  intros Hc Hv Ha Hd Hcs.
  pose proof (create_state_bounded _ _ _ _ _ _ _ Hc Hv Ha Hd) as Hb.
  clear Hc. induction Hcs as [st|st1 st2 st3 C _ IH]; [exact Hb|].
  apply IH. eapply call_state_bounded; eassumption.
Qed.

Lemma calls_keep_state_bounded_witness :
  state_bounded
    (decay 700 None
       (update_affect 100 (snd (appraise_message sample_state scenario_message))
          (fst (appraise_message sample_state scenario_message)))).
Proof.
  apply (calls_keep_state_bounded "c"%string 0.15 0.1 0.0 0.25 0 sample_state).
  - reflexivity.
  - split; apply Qle_bool_iff; vm_compute; reflexivity.
  - split; apply Qle_bool_iff; vm_compute; reflexivity.
  - split; apply Qle_bool_iff; vm_compute; reflexivity.
  - eapply calls_cons; [apply call_appraise|].
    eapply calls_cons; [apply call_update|].
    eapply calls_cons; [apply call_decay|apply calls_nil].
    split; apply Qle_bool_iff; vm_compute; reflexivity.
Defined.

Lemma no_pattern_activates_lust :
  forall p, In p APPRAISAL_PATTERNS -> system_activation p <> Some LUST.
Proof.
  assert (H : forallb (fun p => match system_activation p with
                                | Some LUST => false | _ => true end)
                APPRAISAL_PATTERNS = true) by (vm_compute; reflexivity).
  intros p Hin Hp. rewrite forallb_forall in H. specialize (H p Hin).
  rewrite Hp in H. discriminate.
Qed.

(** No appraisal pattern names LUST, so from a freshly created state no
    sequence of [appraise_message], [update_affect] and [decay] calls
    (with any elapsed times) ever gives LUST a nonzero activation. *)
Theorem calls_never_activate_lust cid bv ba bd i now st st' :
  create_advanced_emotional_state cid bv ba bd i now = Some st ->
  calls (fun _ => True) st st' -> system_activations st' LUST == 0.
Proof.
  intros Hc Hcs.
  assert (H0 : system_activations st LUST == 0).
  { revert Hc. unfold create_advanced_emotional_state.
    destruct (Qle_bool 0 i && Qle_bool i 1); intro H; [|discriminate H].
    injection H as <-. reflexivity. }
  clear Hc. induction Hcs as [st|st1 st2 st3 C _ IH]; [exact H0|].
  apply IH. destruct C as [st message|now' st ap|now' se st _].
  - destruct (appraise_message_acts st message) as (_ & S & _).
    rewrite S; [exact H0|].
    intros p Hin Hp. exfalso. exact (no_pattern_activates_lust p Hin Hp).
  - destruct (update_affect_fields now' st ap) as (_ & Ha & _). rewrite Ha. exact H0.
  - destruct (decay_fields now' se st) as (_ & _ & Ea & _). rewrite Ea, H0. ring.
Qed.

Lemma calls_never_activate_lust_witness :
  system_activations
    (decay 7200 None (snd (appraise_message sample_state scenario_message))) LUST == 0.
Proof.
  apply (calls_never_activate_lust "c"%string 0.15 0.1 0.0 0.25 0 sample_state).
  - reflexivity.
  - eapply calls_cons; [apply call_appraise|].
    eapply calls_cons; [apply call_decay; exact I|apply calls_nil].
Defined.

(* ------------------------------------------------------------------ *)
(** ** [get_dominant_system], [get_summary], [get_response_modifier] *)

Lemma max_fold_spec (acts : AffectiveSystem -> Q) (rest : list AffectiveSystem) :
  forall (seen : list AffectiveSystem) (s : AffectiveSystem),
  (forall x, In x seen -> acts x <= acts s) ->
  (exists pre post, seen = pre ++ s :: post /\ Forall (fun x => acts x < acts s) pre) ->
  let '(s', v') := fold_left (max_step acts) rest (s, acts s) in
  v' = acts s' /\ (forall x, In x (seen ++ rest) -> acts x <= v') /\
  exists pre post, seen ++ rest = pre ++ s' :: post /\ Forall (fun x => acts x < v') pre.
Proof.
  induction rest as [|x rest IH]; intros seen s Hle Hfirst.
  - simpl. rewrite app_nil_r. split; [reflexivity|]. split; assumption.
  - cbn [fold_left]. unfold max_step at 2. cbn [snd].
    replace (seen ++ x :: rest) with ((seen ++ [x]) ++ rest)
      by (rewrite <- app_assoc; reflexivity).
    case_qltb (acts s) (acts x).
    + apply IH.
      * intros y Hy. apply in_app_or in Hy as [Hy|[<-|[]]]; [|apply Qle_refl].
        pose proof (Hle y Hy). lra.
      * exists seen, []. split; [reflexivity|].
        apply Forall_forall. intros y Hy. pose proof (Hle y Hy). lra.
    + apply IH.
      * intros y Hy. apply in_app_or in Hy as [Hy|[<-|[]]]; [apply Hle, Hy | exact E].
      * destruct Hfirst as (pre & post & Hs & Hf).
        exists pre, (post ++ [x]). split; [|exact Hf].
        rewrite Hs, <- app_assoc. reflexivity.
Qed.

Lemma max_item_spec (acts : AffectiveSystem -> Q) :
  exists s v, max_item acts all_systems = Some (s, v) /\
    v = acts s /\ (forall x, acts x <= v) /\
    exists pre post, all_systems = pre ++ s :: post /\ Forall (fun x => acts x < v) pre.
Proof.
  unfold max_item, all_systems.
  pose proof (max_fold_spec acts [RAGE; FEAR; LUST; CARE; PANIC_GRIEF; PLAY]
                [SEEKING] SEEKING) as H.
  destruct (fold_left (max_step acts) [RAGE; FEAR; LUST; CARE; PANIC_GRIEF; PLAY]
              (SEEKING, acts SEEKING)) as [s v].
  destruct H as (Hv & Hle & Hfirst).
  - intros x [<-|[]]. apply Qle_refl.
  - exists [], []. split; [reflexivity | constructor].
  - exists s, v. split; [reflexivity|]. split; [exact Hv|]. split; [|exact Hfirst].
    intro x. apply Hle. destruct x; simpl; tauto.
Qed.

Lemma get_dominant_system_spec (st : AdvancedEmotionalState) :
  (get_dominant_system st = None <-> forall s, system_activations st s < 0.1) /\
  (forall s v, get_dominant_system st = Some (s, v) ->
     v = system_activations st s /\ 0.1 <= v /\
     (forall s', system_activations st s' <= v) /\
     exists pre post, all_systems = pre ++ s :: post /\
       Forall (fun x => system_activations st x < v) pre).
Proof.
  unfold get_dominant_system.
  destruct (max_item_spec (system_activations st)) as (s & v & E & Hv & Hle & Hfirst).
  rewrite E. case_qltb v 0.1.
  - split; [|intros ? ? H; discriminate H].
    split; [|reflexivity]. intros _ x. pose proof (Hle x). lra.
  - split.
    + split; [discriminate|]. intro H. specialize (H s). rewrite <- Hv in H. lra.
    + intros s' v' H. injection H as <- <-. split; [exact Hv|].
      split; [exact E0|]. split; assumption.
Qed.

(** [get_dominant_system] returns [None] exactly when every activation
    is below 0.1; otherwise it returns the first system, in enumeration
    order, with the largest activation, together with that activation
    (at least 0.1). *)
Theorem get_dominant_system_first_max (st : AdvancedEmotionalState) :
  (get_dominant_system st = None <-> forall s, system_activations st s < 0.1) /\
  (forall s v, get_dominant_system st = Some (s, v) ->
     v = system_activations st s /\ 0.1 <= v /\
     (forall s', system_activations st s' <= v) /\
     exists pre post, all_systems = pre ++ s :: post /\
       Forall (fun x => system_activations st x < v) pre).
Proof. apply get_dominant_system_spec. Qed.

Lemma get_dominant_system_first_max_witness :
  get_dominant_system sample_state = None.
Proof.
  apply (proj1 (get_dominant_system_first_max sample_state)).
  intro s. destruct s; reflexivity.
Defined.

Lemma get_summary_dominant (st : AdvancedEmotionalState) :
  summary_dominant_system (get_summary st) =
    option_map (fun p => system_value (fst p)) (get_dominant_system st) /\
  summary_system_intensity (get_summary st) =
    match get_dominant_system st with Some (_, v) => v | None => 0 end /\
  summary_all_systems (get_summary st) =
    map (fun s => (system_value s, round2 (system_activations st s)))
      (filter (fun s => Qltb 0.1 (system_activations st s)) all_systems).
Proof.
  unfold get_summary.
  destruct (get_emotion_label st) as [e c].
  destruct (get_dominant_system st) as [[s v]|]; repeat split.
Qed.

(** In [get_summary], [dominant_system] is [None] exactly when
    [system_intensity] is 0; and whenever [all_systems] lists some
    system, [dominant_system] is one of the listed names.  (The converse
    fails at an activation of exactly 0.1: it is dominant but not
    listed.) *)
Theorem get_summary_dominant_consistent (st : AdvancedEmotionalState) :
  (summary_dominant_system (get_summary st) = None <->
   summary_system_intensity (get_summary st) == 0) /\
  (summary_all_systems (get_summary st) <> [] ->
   exists k, summary_dominant_system (get_summary st) = Some k /\
             In k (map fst (summary_all_systems (get_summary st)))).
Proof.
  destruct (get_summary_dominant st) as (Hd & Hi & Ha).
  rewrite Hd, Hi, Ha.
  destruct (get_dominant_system_spec st) as [HN HS].
  destruct (get_dominant_system st) as [[s v]|] eqn:E.
  - destruct (HS s v eq_refl) as (Hv & H01 & Hle & _).
    split; [split; [discriminate | intro H; exfalso; lra]|].
    intros Hne.
    assert (Hx : exists x, 0.1 < system_activations st x).
    { destruct (filter (fun s => Qltb 0.1 (system_activations st s)) all_systems)
        as [|x l] eqn:F; [exfalso; apply Hne; try rewrite F; reflexivity|].
      exists x.
      assert (Hin : In x (filter (fun s => Qltb 0.1 (system_activations st s)) all_systems))
        by (rewrite F; left; reflexivity).
      apply filter_In in Hin as [_ Hin]. apply Qltb_true, Hin. }
    destruct Hx as [x Hx]. pose proof (Hle x).
    exists (system_value s). split; [reflexivity|].
    rewrite map_map. cbn [fst]. apply in_map, filter_In.
    split; [destruct s; simpl; tauto|].
    apply Qltb_true. rewrite <- Hv. lra.
  - split; [split; [reflexivity | reflexivity]|].
    intro Hne. exfalso. apply Hne.
    pose proof (proj1 HN eq_refl) as Hlow.
    destruct (filter (fun s => Qltb 0.1 (system_activations st s)) all_systems) as [|x l] eqn:F;
      [reflexivity|].
    assert (Hx : In x (filter (fun s => Qltb 0.1 (system_activations st s)) all_systems))
      by (rewrite F; left; reflexivity).
    apply filter_In in Hx as [_ Hx]. apply Qltb_true in Hx.
    specialize (Hlow x). lra.
Qed.

Lemma get_summary_dominant_consistent_witness :
  exists k, summary_dominant_system
              (get_summary (snd (appraise_message sample_state scenario_a_message))) = Some k /\
    In k (map fst (summary_all_systems
              (get_summary (snd (appraise_message sample_state scenario_a_message))))).
Proof.
  apply (proj2 (get_summary_dominant_consistent
                  (snd (appraise_message sample_state scenario_a_message)))).
  vm_compute. discriminate.
Defined.

Lemma round_half_even_close (x : Q) :
  - (1 # 2) <= inject_Z (round_half_even x) - x <= 1 # 2.
Proof.
  pose proof (Qfloor_le x) as H1. pose proof (Qlt_floor x) as H2.
  rewrite inject_Z_plus in H2. change (inject_Z 1) with 1 in H2.
  unfold round_half_even. cbv zeta.
  set (f := Qfloor x) in *.
  case_qltb (x - inject_Z f) (1 # 2); [lra|].
  case_qltb (1 # 2) (x - inject_Z f); [rewrite inject_Z_plus; change (inject_Z 1) with 1; lra|].
  destruct (Z.even f); [lra|]. rewrite inject_Z_plus. change (inject_Z 1) with 1. lra.
Qed.

Lemma round2_close (x : Q) : - (1 # 200) <= round2 x - x <= 1 # 200.
Proof.
  pose proof (round_half_even_close (x * 100)) as H.
  unfold round2. set (n := inject_Z (round_half_even (x * 100))) in *.
  change (n / 100) with (n * (1 # 100)). lra.
Qed.

(** The [all_systems] entry of [get_summary] lists exactly the systems
    whose activation exceeds 0.1, each under its name and with a value
    within 0.005 of the activation ([round(v, 2)]). *)
Theorem get_summary_all_systems (st : AdvancedEmotionalState) :
  (forall k x, In (k, x) (summary_all_systems (get_summary st)) ->
     exists s, k = system_value s /\ 0.1 < system_activations st s /\
               - (1 # 200) <= x - system_activations st s <= 1 # 200) /\
  (forall s, 0.1 < system_activations st s ->
     In (system_value s) (map fst (summary_all_systems (get_summary st)))).
Proof.
  destruct (get_summary_dominant st) as (_ & _ & Ha). rewrite Ha. split.
  - intros k x Hin. apply in_map_iff in Hin as (s & Hs & Hf).
    injection Hs as <- <-. apply filter_In in Hf as [_ Hf].
    exists s. split; [reflexivity|]. split; [apply Qltb_true, Hf|].
    apply round2_close.
  - intros s Hs. rewrite map_map. cbn [fst]. apply in_map, filter_In.
    split; [destruct s; simpl; tauto | apply Qltb_true, Hs].
Qed.

Lemma get_summary_all_systems_witness :
  In "care"%string (map fst (summary_all_systems
     (get_summary (snd (appraise_message sample_state scenario_a_message))))).
Proof.
  apply (proj2 (get_summary_all_systems
                  (snd (appraise_message sample_state scenario_a_message))) CARE).
  reflexivity.
Defined.

Lemma string_append_assoc (a b c : string) :
  ((a ++ b) ++ c = a ++ (b ++ c))%string.
Proof. induction a as [|ch a IH]; simpl; [reflexivity|]. rewrite IH. reflexivity. Qed.

Lemma string_append_inj_l (p a b : string) :
  (p ++ a = p ++ b)%string -> a = b.
Proof.
  induction p as [|ch p IH]; simpl; [tauto|]. intro H. injection H as H. apply IH, H.
Qed.

Lemma prefixb_append (x y : string) : prefixb x (x ++ y) = true.
Proof.
  induction x as [|ch x IH]; simpl; [reflexivity|]. rewrite Ascii.eqb_refl, IH. reflexivity.
Qed.

Lemma join_cons (sep x : string) (rest : list string) :
  exists y, join sep (x :: rest) = (x ++ y)%string.
Proof.
  unfold join. revert x. induction rest as [|z rest IH]; intro x; cbn [fold_left].
  - exists ""%string. induction x as [|ch x IHx]; simpl; [reflexivity|]. rewrite <- IHx. reflexivity.
  - destruct (IH (x ++ sep ++ z)%string) as [y Hy]. rewrite Hy.
    exists ((sep ++ z) ++ y)%string. rewrite !string_append_assoc. reflexivity.
Qed.

Lemma response_modifiers_strings st :
  Forall (fun m => m <> ""%string /\ prefixb m "neutral]" = false) (response_modifiers st).
Proof.
  unfold response_modifiers.
  destruct (closest_scan (current_affect st) EMOTION_COORDINATES NEUTRAL None) as [e md].
  cbv zeta. repeat rewrite Forall_app.
  destruct (get_dominant_system st) as [[sy i]|];
  repeat match goal with
         | |- context [if ?b then _ else _] => destruct b
         end;
  repeat split; repeat constructor; try discriminate;
  try (destruct sy; reflexivity); try (destruct sy; discriminate).
Qed.

(** [get_response_modifier] answers "[Emotional state: neutral]" exactly
    when no modifier applies: valence in [[-0.5, 0.5]], arousal in
    [[-0.3, 0.5]], dominance in [[-0.5, 0.5]], no activation above 0.3,
    and a label confidence of at most 0.5. *)
Lemma get_response_modifier_neutral_iff (st : AdvancedEmotionalState) :
  get_response_modifier st = "[Emotional state: neutral]"%string <->
  (-0.5 <= valence (current_affect st) <= 0.5 /\
   -0.3 <= arousal (current_affect st) <= 0.5 /\
   -0.5 <= dominance (current_affect st) <= 0.5 /\
   (forall s, system_activations st s <= 0.3) /\
   (snd (get_emotion_label st) <= 1 / 2)%R).
Proof.
  transitivity (response_modifiers st = []).
  { unfold get_response_modifier. pose proof (response_modifiers_strings st) as HF.
    destruct (response_modifiers st) as [|m l]; [split; reflexivity|].
    split; [|discriminate]. intro H. exfalso.
    inversion HF as [|? ? [Hm Hp] _]; subst.
    cbn [filter] in H. rewrite (proj2 (String.eqb_neq m ""%string) Hm) in H.
    cbn [negb] in H.
    destruct (join_cons ", " m (filter (fun m0 => negb (m0 =? "")%string) l)) as [y Hy].
    rewrite Hy in H.
    change "[Emotional state: neutral]"%string
      with ("[Emotional state: " ++ "neutral]")%string in H.
    apply string_append_inj_l in H. rewrite string_append_assoc in H.
    rewrite <- H, prefixb_append in Hp. discriminate. }
  unfold response_modifiers, get_emotion_label, get_closest_emotion.
  destruct (closest_scan (current_affect st) EMOTION_COORDINATES NEUTRAL None) as [e md].
  cbv zeta. cbn [snd].
  destruct (get_dominant_system_spec st) as [HN HS].
  pose proof (confidence_gt_half_spec md) as HC.
  case_qltb 0.5 (valence (current_affect st)); cbv beta iota;
    [split; [discriminate | intros ((H1 & H2) & _); lra]|].
  case_qltb (valence (current_affect st)) (-0.5); cbv beta iota;
    [split; [discriminate | intros ((H1 & H2) & _); lra]|].
  cbn [app].
  case_qltb 0.5 (arousal (current_affect st)); cbv beta iota;
    [split; [discriminate | intros (_ & (H1 & H2) & _); lra]|].
  case_qltb (arousal (current_affect st)) (-0.3); cbv beta iota;
    [split; [discriminate | intros (_ & (H1 & H2) & _); lra]|].
  cbn [app].
  case_qltb 0.5 (dominance (current_affect st)); cbv beta iota;
    [split; [discriminate | intros (_ & _ & (H1 & H2) & _); lra]|].
  case_qltb (dominance (current_affect st)) (-0.5); cbv beta iota;
    [split; [discriminate | intros (_ & _ & (H1 & H2) & _); lra]|].
  cbn [app].
  assert (Hsys : (forall s, system_activations st s <= 0.3) <->
                 match get_dominant_system st with
                 | Some (_, intensity) => Qltb 0.3 intensity = false
                 | None => True
                 end).
  { destruct (get_dominant_system st) as [[sy i]|] eqn:Ed.
    - destruct (HS sy i eq_refl) as (Hi & _ & Hle & _).
      rewrite Qltb_false. split; [intro H; rewrite Hi; apply H|].
      intros H s. specialize (Hle s). lra.
    - split; [tauto|]. intros _ s. pose proof (proj1 HN eq_refl s). lra. }
  rewrite Hsys.
  destruct (get_dominant_system st) as [[sy i]|].
  - destruct (Qltb 0.3 i); cbv beta iota.
    + split; [discriminate | intros (_ & _ & _ & H & _); discriminate H].
    + cbn [app]. destruct (confidence_gt_half md) eqn:Ec; cbv beta iota.
      * split; [discriminate|]. intros (_ & _ & _ & _ & Hc).
        pose proof (proj1 HC eq_refl). rlra.
      * split; [intros _|reflexivity].
        repeat split; try lra.
        apply Rnot_lt_le. intro H. apply HC in H. discriminate H.
  - cbv beta iota. cbn [app]. destruct (confidence_gt_half md) eqn:Ec; cbv beta iota.
    + split; [discriminate|]. intros (_ & _ & _ & _ & Hc).
      pose proof (proj1 HC eq_refl). rlra.
    + split; [intros _|reflexivity].
      repeat split; try lra.
      apply Rnot_lt_le. intro H. apply HC in H. discriminate H.
Qed.

Lemma in_emotion_coordinates_neutral :
  In (NEUTRAL, mkDims 0.0 0.0 0.0) EMOTION_COORDINATES.
Proof. unfold EMOTION_COORDINATES. repeat (try (left; reflexivity); right). Qed.

(** Within the box where no axis modifier applies, the nearest label is at
    squared distance at most 0.75 (no farther than NEUTRAL at the origin),
    so the label confidence exceeds 0.5. *)
Lemma neutral_box_confident (st : AdvancedEmotionalState) :
  -0.5 <= valence (current_affect st) <= 0.5 ->
  -0.3 <= arousal (current_affect st) <= 0.5 ->
  -0.5 <= dominance (current_affect st) <= 0.5 ->
  (1 / 2 < snd (get_emotion_label st))%R.
Proof.
  intros Hv Ha Hd. unfold get_emotion_label, get_closest_emotion.
  destruct (closest_scan_spec (current_affect st)) as (i & c & (_ & Hmin & _) & Hs).
  destruct (closest_scan (current_affect st) EMOTION_COORDINATES NEUTRAL None) as [e md].
  cbn [snd] in *. subst md.
  apply confidence_gt_half_spec. cbn [confidence_gt_half]. apply Qltb_true.
  destruct (In_nth_error _ _ in_emotion_coordinates_neutral) as [j Hj].
  specialize (Hmin j _ _ Hj). unfold dist_sq in *. cbn [valence arousal dominance] in Hmin.
  nra.
Qed.

(** The [if not modifiers] branch of [get_response_modifier] is dead: at
    least one modifier always applies (inside the neutral box of the three
    axes the label confidence exceeds 0.5, so [experiencing <label>] is
    added), and the bare "[Emotional state: neutral]" is never returned. *)
Theorem get_response_modifier_never_neutral (st : AdvancedEmotionalState) :
  response_modifiers st <> [] /\
  get_response_modifier st <> "[Emotional state: neutral]"%string.
Proof.
  assert (Hn : get_response_modifier st <> "[Emotional state: neutral]"%string).
  { intro H. apply get_response_modifier_neutral_iff in H as (Hv & Ha & Hd & _ & Hc).
    pose proof (neutral_box_confident st Hv Ha Hd). rlra. }
  split; [|exact Hn].
  intro E. apply Hn. unfold get_response_modifier. rewrite E. reflexivity.
Qed.
